(** * CourseLoader (assets/js/loader.js): a shallow embedding and its properties

    The loader fetches a course manifest and chapter fragments, caches them in
    [localStorage] and renders them.  This development embeds the cache store,
    the two fetchers, the fragment extractor, the table of contents and the
    initialisation, and proves the properties its specification states;
    the second part adds the selection of a chapter and the links between
    chapters, and what the code does at its edges.

    Conventions of the embedding:
    - a JavaScript string is the list of its UTF-16 code units ([jsstring]);
      literals are written as Rocq strings (UTF-8) and decoded by [js];
    - [this] is split into the fields fixed by the constructor
      ([CourseLoader]) and the mutable part of the page ([State]);
    - the browser is an [Env]: the clock, the network, the storage quota
      and the validity of selectors are oracles, so every statement holds
      for every behaviour of them;
    - an [async] method is a computation in the monad [M] (state and
      exceptions); a rejected promise is a thrown [JsError]; a call runs
      from its start to its end, calls that overlap at an [await] are not
      interleaved;
    - the [console] calls have no effect on any value and are left out;
    - a Number is a double: an integer is rounded to 53 significant bits
      when it becomes a Number, and so is every sum; [String] gives the
      shortest digits that read back as the same double. *)

From Stdlib Require Import String Ascii ZArith NArith Lia List.
From Stdlib Require Floats.SpecFloat.
From stdpp Require Import base option list gmap.

Open Scope Z_scope.
Open Scope list_scope.

(** ** Strings *)

Abbreviation jsstring := (list N).

Module Utf.

(** Decoding of a UTF-8 byte sequence into UTF-16 code units; it is only
    used to write the string literals of the source. *)
Fixpoint utf16 (bs : list N) : list N :=
  match bs with
  | [] => []
  | b0 :: r0 =>
      if (b0 <? 128)%N then b0 :: utf16 r0
      else match r0 with
      | [] => [b0]
      | b1 :: r1 =>
          if (b0 <? 224)%N
          then ((b0 - 192) * 64 + (b1 - 128))%N :: utf16 r1
          else match r1 with
          | [] => [b0; b1]
          | b2 :: r2 =>
              if (b0 <? 240)%N
              then ((b0 - 224) * 4096 + (b1 - 128) * 64 + (b2 - 128))%N
                     :: utf16 r2
              else match r2 with
              | [] => [b0; b1; b2]
              | b3 :: r3 =>
                  let cp := ((b0 - 240) * 262144 + (b1 - 128) * 4096
                             + (b2 - 128) * 64 + (b3 - 128))%N in
                  let v := (cp - 65536)%N in
                  (55296 + v / 1024)%N :: (56320 + v mod 1024)%N :: utf16 r3
              end
          end
      end
  end.

Definition bytes (s : string) : list N :=
  map N_of_ascii (list_ascii_of_string s).

End Utf.

Definition js (s : string) : jsstring := Utf.utf16 (Utf.bytes s).
Arguments js : simpl never.

(** The double quote, which a Rocq literal cannot hold undoubled. *)
Definition dq : jsstring := [34%N].

Definition jsstring_eqb (a b : jsstring) : bool := bool_decide (a = b).

(** [s.startsWith(p)] *)
Fixpoint startsWith (p s : jsstring) : bool :=
  match p, s with
  | [], _ => true
  | _ :: _, [] => false
  | a :: p', b :: s' => (a =? b)%N && startsWith p' s'
  end.

(** WhiteSpace and LineTerminator code units of ECMAScript, the ones
    [String.prototype.trim] strips. *)
Definition is_ws (c : N) : bool :=
  ((9 <=? c) && (c <=? 13) || (c =? 32) || (c =? 160) || (c =? 5760)
   || (8192 <=? c) && (c <=? 8202) || (c =? 8232) || (c =? 8233)
   || (c =? 8239) || (c =? 8287) || (c =? 12288) || (c =? 65279))%N.

Fixpoint trimStart (s : jsstring) : jsstring :=
  match s with
  | [] => []
  | c :: s' => if is_ws c then trimStart s' else s
  end.

Definition trimEnd (s : jsstring) : jsstring := rev (trimStart (rev s)).

(** [s.trim()] *)
Definition trim (s : jsstring) : jsstring := trimEnd (trimStart s).

(** [s.split(sep)] for a string separator.  [split_go] scans [s] from the
    left: [cur] holds the current part reversed and [skip] counts the code
    units of a matched separator still to pass over, so that matches never
    overlap.  An empty separator splits between all code units. *)
Fixpoint split_go (sep : jsstring) (skip : nat) (cur : jsstring)
    (s : jsstring) : list jsstring :=
  match s with
  | [] => [rev cur]
  | c :: s' =>
      match skip with
      | S k => split_go sep k cur s'
      | O =>
          if startsWith sep s
          then rev cur :: split_go sep (length sep - 1) [] s'
          else split_go sep 0 (c :: cur) s'
      end
  end.

Definition split (sep s : jsstring) : list jsstring :=
  match sep with
  | [] => map (fun c => [c]) s
  | _ :: _ => split_go sep 0 [] s
  end.

(** [s.substring(i, j)] for [i <= j] *)
Definition substring (i j : nat) (s : jsstring) : jsstring :=
  take (j - i) (drop i s).

(** The positions at which [sep] occurs in [s], in increasing order. *)
Fixpoint occurrences_from (sep : jsstring) (i : nat) (s : jsstring)
    : list nat :=
  match s with
  | [] => []
  | _ :: s' =>
      if startsWith sep s
      then i :: occurrences_from sep (S i) s'
      else occurrences_from sep (S i) s'
  end.

Definition occurrences (sep s : jsstring) : list nat :=
  occurrences_from sep 0 s.

(** [s.indexOf(p)], [None] for -1 *)
Definition indexOf (p s : jsstring) : option nat :=
  match p with
  | [] => Some 0%nat
  | _ :: _ => head (occurrences p s)
  end.


(** ** Numbers

    A Number is an IEEE 754 double.  The Numbers of this program are clock
    readings, HTTP statuses and the total of the durations: integers, an
    infinity or NaN.  [Finite z] is the double whose value is the integer
    [z]; the operations build it only for values that are doubles.  The
    sign of a zero is not kept: no text shows it. *)
Inductive Number :=
  | NaN
  | Infinity (negative : bool)
  | Finite (z : Z).

(** Rounding of a magnitude to 53 significant bits, to the nearest, a tie
    to the even significand. *)
Definition round_to_53_bits (n : Z) : Z :=
  let shift := Z.log2 n - 52 in
  if shift <=? 0 then n
  else
    let q := Z.shiftr n shift in
    let r := n - Z.shiftl q shift in
    let half := Z.shiftl 1 (shift - 1) in
    let q' := if (half <? r) || ((r =? half) && Z.odd q) then q + 1 else q in
    Z.shiftl q' shift.

(** The Number for a mathematical integer: the nearest double, infinite
    from 2^1024 on. *)
Definition Num (z : Z) : Number :=
  let m := round_to_53_bits (Z.abs z) in
  if 2 ^ 1024 <=? m then Infinity (z <? 0) else Finite (Z.sgn z * m).

(** [a + b]: the exact sum, rounded. *)
Definition Number_add (a b : Number) : Number :=
  match a, b with
  | NaN, _ | _, NaN => NaN
  | Infinity s, Infinity s' => if Bool.eqb s s' then Infinity s else NaN
  | Infinity s, Finite _ | Finite _, Infinity s => Infinity s
  | Finite x, Finite y => Num (x + y)
  end.

Definition digit_char (d : N) : N := (48 + d)%N.

(** The decimal digits of [n], most significant first; [fuel] bounds the
    number of digits. *)
Fixpoint decimal_go (fuel : nat) (n : N) (acc : jsstring) : jsstring :=
  match fuel with
  | O => acc
  | S fuel' =>
      let acc' := digit_char (n mod 10) :: acc in
      if (n <? 10)%N then acc' else decimal_go fuel' (n / 10) acc'
  end.

Definition decimal (n : N) : jsstring :=
  decimal_go (S (N.to_nat (N.log2 n))) n [].

(** Whether the integer [c] is one of the numbers that round to the double
    of value [v]. *)
Definition rounds_to (v c : Z) : bool :=
  match Num c with
  | Finite m => m =? v
  | _ => false
  end.

(** The search of Number::toString for the digits of a double of value
    [v]: with one significant digit, then two, and so on ([scale] is the
    weight of the last one), the multiples of [scale] next to [v] are
    tried, and the first that rounds to [v] is taken; of two, the nearer
    one, and the even one when they are equally near. *)
Fixpoint shortest_go (fuel : nat) (v scale : Z) : Z :=
  match fuel with
  | O => v
  | S fuel' =>
      let s := v / scale in
      let lo := s * scale in
      let hi := lo + scale in
      match rounds_to v lo, rounds_to v hi with
      | true, true =>
          if (v - lo <? hi - v) || ((v - lo =? hi - v) && Z.even s)
          then lo else hi
      | true, false => lo
      | false, true => hi
      | false, false => shortest_go fuel' v (scale / 10)
      end
  end.

(** The integer with the fewest significant digits that rounds to the
    double of value [v], for [0 <= v]. *)
Definition shortest (v : Z) : Z :=
  let n := length (decimal (Z.to_N v)) in
  shortest_go n v (10 ^ (Z.of_nat n - 1)).

Fixpoint strip_zeros (reversed : jsstring) : jsstring :=
  match reversed with
  | c :: r => if (c =? 48)%N then strip_zeros r else reversed
  | [] => []
  end.

(** The text of the integer [c]: its digits below 10^21 (at most 21
    digits), the exponent notation from there on. *)
Definition format_digits (c : Z) : jsstring :=
  let digits := decimal (Z.to_N c) in
  if c <? 10 ^ 21 then digits
  else
    let exponent := js "e+" ++ decimal (N.of_nat (length digits - 1)) in
    match rev (strip_zeros (rev digits)) with
    | [] => []
    | [d] => d :: exponent
    | d :: ds => d :: js "." ++ ds ++ exponent
    end.

(** [String(x)] and the conversion inside a template literal *)
Definition Number_toString (x : Number) : jsstring :=
  match x with
  | NaN => js "NaN"
  | Infinity negative => (if negative then js "-" else []) ++ js "Infinity"
  | Finite z =>
      (if z <? 0 then js "-" else []) ++ format_digits (shortest (Z.abs z))
  end.

Definition is_digit (c : N) : bool := ((48 <=? c) && (c <=? 57))%N.

Definition digit_value (c : N) : Z := Z.of_N c - 48.

Fixpoint takeDigits (s : jsstring) : jsstring :=
  match s with
  | [] => []
  | c :: s' => if is_digit c then c :: takeDigits s' else []
  end.

(** The value of a string of decimal digits, read from the left. *)
Definition decimal_value (ds : jsstring) : Z :=
  fold_left (fun acc c => acc * 10 + digit_value c) ds 0.

Definition is_hex_digit (c : N) : bool :=
  (is_digit c || (65 <=? c) && (c <=? 70) || (97 <=? c) && (c <=? 102))%N.

Definition hex_digit_value (c : N) : Z :=
  if is_digit c then Z.of_N c - 48
  else if (c <=? 70)%N then Z.of_N c - 55 else Z.of_N c - 87.

Fixpoint takeHexDigits (s : jsstring) : jsstring :=
  match s with
  | [] => []
  | c :: s' => if is_hex_digit c then c :: takeHexDigits s' else []
  end.

Definition hex_value (ds : jsstring) : Z :=
  fold_left (fun acc c => acc * 16 + hex_digit_value c) ds 0.

(** [parseInt(s)] without a radix: leading white space and a sign are
    skipped, a prefix 0x or 0X selects base 16, and the longest prefix of
    digits is read; NaN when there is none.  The result is the double
    nearest to the integer read (for more than twenty decimal digits the
    standard also allows an engine to read the further ones as zeros). *)
Definition parseInt (s : jsstring) : Number :=
  let s1 := trimStart s in
  let '(sign, s2) :=
    match s1 with
    | c :: r =>
        if (c =? 45)%N then (-1, r)
        else if (c =? 43)%N then (1, r) else (1, s1)
    | [] => (1, s1)
    end in
  let decimal_prefix :=
    match takeDigits s2 with
    | [] => NaN
    | ds => Num (sign * decimal_value ds)
    end in
  match s2 with
  | a :: b :: r =>
      if ((a =? 48) && ((b =? 120) || (b =? 88)))%N
      then match takeHexDigits r with
           | [] => NaN
           | ds => Num (sign * hex_value ds)
           end
      else decimal_prefix
  | _ => decimal_prefix
  end.

(** [s.match(/(\d+)/)]: the capture group of the leftmost match, which is
    the longest run of digits starting at the first digit of [s]; [None]
    when the match is [null]. *)
Fixpoint match_digits (s : jsstring) : option jsstring :=
  match s with
  | [] => None
  | c :: s' => if is_digit c then Some (takeDigits s) else match_digits s'
  end.

(** ** Data model *)

Record Chapter := {
  ch_id : jsstring;
  ch_title : jsstring;
  ch_type : jsstring;
  ch_duration : jsstring;
  ch_exercise : option jsstring
}.

Record CourseConfig := {
  courseName : jsstring;
  description : jsstring;
  version : jsstring;
  institution : jsstring;
  chapters : list Chapter
}.

(** The values that reach the cache and the instance config: fragments
    (strings) and manifests (objects). *)
Inductive jsval :=
  | VString (s : jsstring)
  | VConfig (c : CourseConfig).

(** ToBoolean: the empty string is falsy, every object is truthy. *)
Definition truthy (v : jsval) : bool :=
  match v with
  | VString [] => false
  | VString (_ :: _) => true
  | VConfig _ => true
  end.

(** An entry of [localStorage], seen through [JSON.parse]: the envelope
    that [saveToCache] writes, or a string on which [getFromCache] gives up
    (empty, or not the JSON of an object). *)
Inductive item :=
  | Envelope (data : jsval) (timestamp : Z)
  | Corrupt.

Record JsError := { message : jsstring }.

Inductive Outcome (A : Type) :=
  | Resolved (a : A)
  | Rejected (e : JsError).
Arguments Resolved {A} a.
Arguments Rejected {A} e.

Record Response := {
  status : Z;
  text : Outcome jsstring;
  json : Outcome jsval
}.

(** [response.ok] *)
Definition ok (r : Response) : bool := (200 <=? status r) && (status r <=? 299).

(** The fields of [this] that the constructor fixes. *)
Record CourseLoader := {
  baseUrl : jsstring;
  courseId : jsstring;
  container : jsstring;
  cacheEnabled : bool;
  cacheDuration : Z;
  marker : jsstring;
  cacheVersion : jsstring
}.

(** What [renderUI] appends to the container: the header, and the grid of
    the column with the table of contents and the content column. *)
Inductive node :=
  | HeaderNode (innerHTML : jsstring)
  | GridNode (single_column : bool) (toc : jsstring).

(** The effects a trace records: a request sent, a call of [saveToCache]
    (whether or not it writes), and the writes and removals of the
    storage. *)
Inductive event :=
  | EFetch (url : jsstring)
  | ESaveToCache (key : jsstring) (data : jsval)
  | ESetItem (key : jsstring) (it : item)
  | ERemoveItem (key : jsstring).

(** The mutable part: the two mutable fields of [this], the storage, the
    page, the number of oracle consultations so far, and the effects
    performed so far (latest first).

    The page is described as the methods see it.  [container_el] is the
    element that [document.querySelector(this.container)] finds, given by
    the children appended to it, and [None] when no element matches.
    [chapter_content] is the [innerHTML] of the element that
    [document.getElementById('chapter_content')] finds, the first one of
    that id in document order, and [None] when there is none;
    [content_behind] says that this element stands behind the container in
    the document, so that an element of the same id appended to the
    container comes before it.  The elements of that id are taken to lie
    outside each other, and the container outside all of them. *)
Record State := {
  config : option jsval;
  currentChapter : option Chapter;
  localStorage : gmap jsstring item;
  container_el : option (list node);
  chapter_content : option jsstring;
  content_behind : bool;
  ticks : nat;
  trace : list event
}.

(** The browser.  [time_at] (what [Date.now()] returns) and [net_fetch]
    answer by the number of earlier consultations; [quota_exceeded] says
    whether [setItem] throws; [native_toString] is the text an engine gives
    a built-in; [selector_valid] says whether a string is a selector
    ([querySelector] throws on any other string). *)
Record Env := {
  time_at : nat -> Z;
  net_fetch : nat -> jsstring -> Outcome Response;
  quota_exceeded : gmap jsstring item -> jsstring -> item -> bool;
  native_toString : jsstring -> jsstring;
  selector_valid : jsstring -> bool;
  hostname : jsstring;
  innerWidth : Z
}.

(** ** The monad of methods *)

Inductive Completion (A : Type) :=
  | Normal (a : A)
  | Throw (e : JsError).
Arguments Normal {A} a.
Arguments Throw {A} e.

Definition M (A : Type) : Type := Env -> State -> Completion A * State.

Definition ret {A} (a : A) : M A := fun _ st => (Normal a, st).

Definition bind {A B} (m : M A) (k : A -> M B) : M B :=
  fun env st =>
    match m env st with
    | (Normal a, st') => k a env st'
    | (Throw e, st') => (Throw e, st')
    end.

Definition throw {A} (e : JsError) : M A := fun _ st => (Throw e, st).

(** [try { body } catch (error) { handler }]: the effects of [body] up to
    the throw stay. *)
Definition try_catch {A} (body : M A) (handler : JsError -> M A) : M A :=
  fun env st =>
    match body env st with
    | (Normal a, st') => (Normal a, st')
    | (Throw e, st') => handler e env st'
    end.

Declare Scope js_scope.
Delimit Scope js_scope with js.
Notation "x <~ m ; k" := (bind m (fun x => k))
  (at level 20, m at level 100, k at level 200, only parsing) : js_scope.
Open Scope js_scope.

Definition new_Error {A} (msg : jsstring) : M A := throw {| message := msg |}.

Definition gets {A} (f : State -> A) : M A := fun _ st => (Normal (f st), st).

Definition modify (f : State -> State) : M unit :=
  fun _ st => (Normal tt, f st).

Definition set_config (v : option jsval) (st : State) : State :=
  {| config := v; currentChapter := currentChapter st;
     localStorage := localStorage st; container_el := container_el st;
     chapter_content := chapter_content st;
     content_behind := content_behind st; ticks := ticks st;
     trace := trace st |}.

Definition set_localStorage (m : gmap jsstring item) (st : State) : State :=
  {| config := config st; currentChapter := currentChapter st;
     localStorage := m; container_el := container_el st;
     chapter_content := chapter_content st;
     content_behind := content_behind st; ticks := ticks st;
     trace := trace st |}.

Definition set_container_el (c : option (list node)) (st : State) : State :=
  {| config := config st; currentChapter := currentChapter st;
     localStorage := localStorage st; container_el := c;
     chapter_content := chapter_content st;
     content_behind := content_behind st; ticks := ticks st;
     trace := trace st |}.

Definition set_chapter_content (h : option jsstring) (st : State) : State :=
  {| config := config st; currentChapter := currentChapter st;
     localStorage := localStorage st; container_el := container_el st;
     chapter_content := h; content_behind := content_behind st;
     ticks := ticks st; trace := trace st |}.

Definition set_content_behind (b : bool) (st : State) : State :=
  {| config := config st; currentChapter := currentChapter st;
     localStorage := localStorage st; container_el := container_el st;
     chapter_content := chapter_content st; content_behind := b;
     ticks := ticks st; trace := trace st |}.

Definition tick (st : State) : State :=
  {| config := config st; currentChapter := currentChapter st;
     localStorage := localStorage st; container_el := container_el st;
     chapter_content := chapter_content st;
     content_behind := content_behind st; ticks := S (ticks st);
     trace := trace st |}.

Definition emit (e : event) (st : State) : State :=
  {| config := config st; currentChapter := currentChapter st;
     localStorage := localStorage st; container_el := container_el st;
     chapter_content := chapter_content st;
     content_behind := content_behind st; ticks := ticks st;
     trace := e :: trace st |}.

(** [Date.now()] *)
Definition Date_now : M Z :=
  fun env st => (Normal (time_at env (ticks st)), tick st).

(** [await fetch(url)] *)
Definition fetch (url : jsstring) : M Response :=
  fun env st =>
    let st' := tick (emit (EFetch url) st) in
    match net_fetch env (ticks st) url with
    | Resolved r => (Normal r, st')
    | Rejected e => (Throw e, st')
    end.

(** [await p] for the promise of a body reader *)
Definition await {A} (p : Outcome A) : M A :=
  match p with
  | Resolved a => ret a
  | Rejected e => throw e
  end.

(** [localStorage.getItem(k)] *)
Definition getItem (k : jsstring) : M (option item) :=
  gets (fun st => localStorage st !! k).

(** [localStorage.setItem(k, v)] *)
Definition setItem (k : jsstring) (v : item) : M unit :=
  fun env st =>
    if quota_exceeded env (localStorage st) k v
    then (Throw {| message := js "QuotaExceededError" |}, st)
    else (Normal tt,
          emit (ESetItem k v) (set_localStorage (<[k:=v]> (localStorage st)) st)).

(** [localStorage.removeItem(k)] *)
Definition removeItem (k : jsstring) : M unit :=
  modify (fun st =>
    emit (ERemoveItem k) (set_localStorage (delete k (localStorage st)) st)).

(** ** Cache store *)

(** The key under which [key] is stored: [`${this.cacheVersion}_${key}`] *)
Definition storage_key (this : CourseLoader) (key : jsstring) : jsstring :=
  cacheVersion this ++ js "_" ++ key.

Definition getFromCache (this : CourseLoader) (key : jsstring)
    : M (option jsval) :=
  if negb (cacheEnabled this) then ret None
  else
    try_catch
      (item <~ getItem (storage_key this key);
       match item with
       | None => ret None
       | Some Corrupt => new_Error (js "SyntaxError")
       | Some (Envelope data timestamp) =>
           now <~ Date_now;
           if now - timestamp >? cacheDuration this
           then _ <~ removeItem (storage_key this key); ret None
           else ret (Some data)
       end)
      (fun error => ret None).

Definition saveToCache (this : CourseLoader) (key : jsstring) (data : jsval)
    : M unit :=
  _ <~ modify (emit (ESaveToCache key data));
  if negb (cacheEnabled this) then ret tt
  else
    try_catch
      (now <~ Date_now;
       setItem (storage_key this key) (Envelope data now))
      (fun error => ret tt).

(** ** HTML templates

    The template literals of the source, with [dq] for the double quote. *)

Definition toc_head : jsstring :=
  js "
      <nav class=" ++ dq ++ js "inhaltsverzeichnis" ++ dq ++ js " style=" ++ dq ++ js "position: sticky; top: 0;" ++ dq ++ js ">
        <h4 style=" ++ dq ++ js "margin: 0 0 1rem 0; color: #005691; border-bottom: 2px solid #005691; padding-bottom: 0.5rem;" ++ dq ++ js ">
          📚 Inhaltsverzeichnis
        </h4>
        <ul style=" ++ dq ++ js "list-style: none; padding: 0; margin: 0;" ++ dq ++ js ">
    ".

Definition toc_entry (icon : jsstring) (chapter : Chapter) : jsstring :=
  js "
        <li style=" ++ dq ++ js "margin-bottom: 0.5rem;" ++ dq ++ js ">
          <a href=" ++ dq ++ js "#" ++ dq ++ js " data-chapter-id=" ++ dq ++ ch_id chapter ++ dq ++ js " class=" ++ dq ++ js "toc-link" ++ dq ++ js " style=" ++ dq ++ js "
            display: block;
            padding: 0.5rem;
            border-radius: 4px;
            transition: all 0.3s ease;
            cursor: pointer;
          " ++ dq ++ js " onmouseover=" ++ dq ++ js "this.style.backgroundColor='#e3f2fd'; this.style.paddingLeft='1rem';" ++ dq ++ js " 
             onmouseout=" ++ dq ++ js "this.style.backgroundColor='transparent'; this.style.paddingLeft='0.5rem';" ++ dq ++ js ">
            " ++ icon ++ js " " ++ ch_id chapter ++ js ": " ++ ch_title chapter ++ js "
            <small style=" ++ dq ++ js "display: block; color: #999; font-size: 0.8em; margin-top: 0.25rem;" ++ dq ++ js ">
              ⏱️ " ++ ch_duration chapter ++ js "
            </small>
          </a>
        </li>
      ".

Definition toc_tail (total : jsstring) : jsstring :=
  js "
        </ul>
        <div style=" ++ dq ++ js "margin-top: 1.5rem; padding-top: 1rem; border-top: 1px solid #ddd; font-size: 0.85em; color: #666;" ++ dq ++ js ">
          <p style=" ++ dq ++ js "margin: 0;" ++ dq ++ js "><strong>Summe:</strong> " ++ total ++ js "</p>
          <p style=" ++ dq ++ js "margin: 0.5rem 0 0 0;" ++ dq ++ js ">
            <button onclick=" ++ dq ++ js "location.reload()" ++ dq ++ js " style=" ++ dq ++ js "
              background: #005691;
              color: white;
              border: none;
              padding: 0.5rem 1rem;
              border-radius: 4px;
              cursor: pointer;
              font-size: 0.9em;
              width: 100%;
            " ++ dq ++ js ">🔄 Cache löschen</button>
          </p>
        </div>
      </nav>
    ".

Definition header_html (courseName_ description_ version_ institution_
    : jsstring) : jsstring :=
  js "
      <h2 style=" ++ dq ++ js "color: #005691; margin: 0 0 0.5rem 0;" ++ dq ++ js ">" ++ courseName_ ++ js "</h2>
      <p style=" ++ dq ++ js "margin: 0; color: #666; font-size: 0.9em;" ++ dq ++ js ">" ++ description_ ++ js "</p>
      <small style=" ++ dq ++ js "color: #999;" ++ dq ++ js ">v" ++ version_ ++ js " • " ++ institution_ ++ js "</small>
    ".

Definition error_panel (message : jsstring) : jsstring :=
  js "
        <div class=" ++ dq ++ js "error" ++ dq ++ js " style=" ++ dq ++ js "
          border: 2px solid #f44336;
          background-color: #ffebee;
          padding: 1.5rem;
          color: #c62828;
          border-radius: 8px;
          margin: 2rem 0;
        " ++ dq ++ js ">
          <strong>⚠️ Fehler</strong>
          <p>" ++ message ++ js "</p>
          <button onclick=" ++ dq ++ js "location.reload()" ++ dq ++ js " style=" ++ dq ++ js "
            background: #f44336;
            color: white;
            border: none;
            padding: 0.5rem 1rem;
            border-radius: 4px;
            cursor: pointer;
          " ++ dq ++ js ">Neu laden</button>
        </div>
      ".

Definition error_fragment (message : jsstring) : jsstring :=
  js "<div class=" ++ dq ++ js "error" ++ dq ++ js "><strong>Fehler:</strong> Kapitel konnte nicht geladen werden (" ++ message ++ js ")</div>".

Definition placeholder_html : jsstring :=
  js "<div style=" ++ dq ++ js "padding: 2rem; text-align: center; color: #999;" ++ dq ++ js ">Wähle ein Kapitel aus</div>".

(** ** Construction *)

Record Options := {
  opt_baseUrl : option jsstring;
  opt_courseId : option jsstring;
  opt_container : option jsstring;
  opt_cacheEnabled : option bool;
  opt_cacheDuration : option Z
}.

(** [o || d] for a string option: [undefined] and the empty string are
    falsy. *)
Definition string_or (o : option jsstring) (d : jsstring) : jsstring :=
  match o with
  | Some (c :: s) => c :: s
  | _ => d
  end.

(** The fields the constructor sets (it then starts [init]). *)
Definition constructor (env : Env) (options : Options) : CourseLoader :=
  let localMode :=
    jsstring_eqb (hostname env) (js "localhost")
    || jsstring_eqb (hostname env) (js "127.0.0.1") in
  {| baseUrl :=
       if localMode then []
       else string_or (opt_baseUrl options)
              (js "https://purge.jsdelivr.net/gh/andrkelb-school/SW_Situation_1_BauMax@latest");
     courseId := string_or (opt_courseId options) (js "situation_1");
     container := string_or (opt_container options) (js "#content_container");
     cacheEnabled :=
       match opt_cacheEnabled options with
       | Some false => false
       | _ => true
       end;
     cacheDuration :=
       match opt_cacheDuration options with
       | Some 0 | None => 3600000
       | Some d => d
       end;
     marker := js "<!-- HIER_STARTET_DER_INHALT -->";
     cacheVersion := js "v1.0.0" |}.

(** ** Fragment extraction *)

Definition extractContent (this : CourseLoader) (html : jsstring) : jsstring :=
  let parts := split (marker this) html in
  if (length parts <? 3)%nat then html
  else trim (default [] (parts !! 1%nat)).

(** ** Table of contents *)

(** [this.config.chapters]: a TypeError unless the config is a manifest. *)
Definition config_chapters : M (list Chapter) :=
  cfg <~ gets config;
  match cfg with
  | Some (VConfig c) => ret (chapters c)
  | _ => new_Error (js "TypeError")
  end.

(** The body of the [forEach] callback of [getTotalDuration]. *)
Definition add_duration (total : Number) (ch : Chapter) : Number :=
  match match_digits (ch_duration ch) with
  | Some m => Number_add total (parseInt m)
  | None => total
  end.

Definition getTotalDuration : M jsstring :=
  chs <~ config_chapters;
  let total := fold_left add_duration chs (Num 0) in
  ret (Number_toString total ++ js " min").

Definition icon (chapter : Chapter) : jsstring :=
  if jsstring_eqb (ch_type chapter) (js "intro") then js "🎬" else js "📖".

Definition renderTableOfContents : M jsstring :=
  chs <~ config_chapters;
  let html :=
    fold_left (fun html chapter => html ++ toc_entry (icon chapter) chapter)
      chs toc_head in
  total <~ getTotalDuration;
  ret (html ++ toc_tail total).

(** ** Content fetcher *)

(** The object literal [fileMapping]: its own properties. *)
Definition fileMapping : gmap jsstring jsstring :=
  list_to_map
    [ (js "1.0", js "seite1.0_baumax_app.html");
      (js "1.1", js "seite1.1_fliesenrechner.html");
      (js "1.2", js "seite1.2_digitaler_helfer.html");
      (js "1.3", js "seite1.3_baumax_premium.html");
      (js "1.4", js "seite1.4_vollstaendiges_kundenprofil.html");
      (js "1.5", js "seite1.5_checkliste_warenversand.html");
      (js "1.6", js "seite1.6_mehrwertsteuer.html");
      (js "1.7", js "seite1.7_speicheroptimierung.html");
      (js "1.8", js "seite1.8_verpackungs_rechner.html");
      (js "1.9", js "seite1.9_zugangs_check.html") ].

(** The properties every object literal inherits from [Object.prototype];
    each is a function or an object, hence truthy. *)
Definition Object_prototype : list jsstring :=
  [ js "constructor"; js "__defineGetter__"; js "__defineSetter__";
    js "hasOwnProperty"; js "__lookupGetter__"; js "__lookupSetter__";
    js "isPrototypeOf"; js "propertyIsEnumerable"; js "toString";
    js "valueOf"; js "__proto__"; js "toLocaleString" ].

Inductive property :=
  | OwnString (s : jsstring)
  | Inherited (name : jsstring).

(** [obj[k]] for an object literal with string values: own properties
    first, then the prototype chain; [None] for [undefined]. *)
Definition get_property (obj : gmap jsstring jsstring) (k : jsstring)
    : option property :=
  match obj !! k with
  | Some s => Some (OwnString s)
  | None =>
      if bool_decide (k ∈ Object_prototype) then Some (Inherited k) else None
  end.

Definition property_truthy (o : option property) : bool :=
  match o with
  | None => false
  | Some (OwnString []) => false
  | Some _ => true
  end.

(** The conversion of a property value inside a template literal. *)
Definition property_toString (env : Env) (o : option property) : jsstring :=
  match o with
  | None => js "undefined"
  | Some (OwnString s) => s
  | Some (Inherited name) => native_toString env name
  end.

Definition ask : M Env := fun env st => (Normal env, st).

(** [if (cached)]: the value when it is truthy. *)
Definition if_truthy (cached : option jsval) : option jsval :=
  match cached with
  | Some v => if truthy v then Some v else None
  | None => None
  end.

Definition fetchChapterContent (this : CourseLoader) (chapter : Chapter)
    : M jsval :=
  let cacheKey := js "chapter_" ++ courseId this ++ js "_" ++ ch_id chapter in
  cached <~ getFromCache this cacheKey;
  match if_truthy cached with
  | Some v => ret v
  | None =>
      try_catch
        (let fileName := get_property fileMapping (ch_id chapter) in
         if negb (property_truthy fileName)
         then new_Error (js "Keine Datei für Kapitel " ++ ch_id chapter
                         ++ js " definiert")
         else
           env <~ ask;
           now <~ Date_now;
           let fullUrl :=
             baseUrl this ++ js "/github_content/"
             ++ property_toString env fileName ++ js "?t="
             ++ Number_toString (Num now) in
           response <~ fetch fullUrl;
           if negb (ok response)
           then new_Error (js "HTTP "
                           ++ Number_toString (Num (status response)))
           else
             html <~ await (text response);
             let content := extractContent this html in
             _ <~ saveToCache this cacheKey (VString content);
             ret (VString content))
        (fun error => ret (VString (error_fragment (message error))))
  end.

(** [!chapter.exercise]: no reference, or an empty one. *)
Definition exercise_ref (chapter : Chapter) : option jsstring :=
  match ch_exercise chapter with
  | Some (c :: s) => Some (c :: s)
  | _ => None
  end.

Definition fetchExerciseContent (this : CourseLoader) (chapter : Chapter)
    : M jsval :=
  match exercise_ref chapter with
  | None => ret (VString [])
  | Some exercise =>
      let cacheKey :=
        js "exercise_" ++ courseId this ++ js "_" ++ ch_id chapter in
      cached <~ getFromCache this cacheKey;
      match if_truthy cached with
      | Some v => ret v
      | None =>
          try_catch
            (now <~ Date_now;
             let url :=
               baseUrl this ++ js "/github_content/" ++ exercise ++ js "?t="
               ++ Number_toString (Num now) in
             response <~ fetch url;
             if ok response
             then
               html <~ await (text response);
               let content := extractContent this html in
               _ <~ saveToCache this cacheKey (VString content);
               ret (VString content)
             else ret (VString []))
            (fun error => ret (VString []))
      end
  end.

(** ** Config fetcher *)

Definition loadConfig (this : CourseLoader) : M unit :=
  let cacheKey := js "course_config_" ++ courseId this in
  cached <~ getFromCache this cacheKey;
  match if_truthy cached with
  | Some v => modify (set_config (Some v))
  | None =>
      try_catch
        (now <~ Date_now;
         let url :=
           baseUrl this ++ js "/courses/" ++ courseId this
           ++ js "/config.json?t=" ++ Number_toString (Num now) in
         response <~ fetch url;
         if negb (ok response)
         then new_Error (js "HTTP "
                         ++ Number_toString (Num (status response)))
         else
           cfg <~ await (json response);
           _ <~ modify (set_config (Some cfg));
           saveToCache this cacheKey cfg)
        (fun error => throw error)
  end.

(** ** Renderer *)

(** [this.config.f] inside a template literal: a TypeError when the config
    is [null], the text [undefined] when it is not a manifest. *)
Definition config_field (f : CourseConfig -> jsstring) : M jsstring :=
  cfg <~ gets config;
  match cfg with
  | None => new_Error (js "TypeError")
  | Some (VString _) => ret (js "undefined")
  | Some (VConfig c) => ret (f c)
  end.

(** [document.querySelector(this.container)]: a SyntaxError when the text
    is not a selector, else the element it finds or [null]. *)
Definition querySelector (selector : jsstring) : M (option (list node)) :=
  fun env st =>
    if selector_valid env selector then (Normal (container_el st), st)
    else (Throw {| message := js "SyntaxError" |}, st).

(** [container.appendChild(n)] *)
Definition appendChild (n : node) : M unit :=
  modify (fun st =>
    set_container_el (fmap (fun l => l ++ [n]) (container_el st)) st).

(** [container.appendChild(grid)]: with the grid the new content column,
    an element of id [chapter_content] that holds the placeholder, joins
    the document behind everything the container held.  It is the one
    that [getElementById] finds from now on when the page had no element
    of that id, or only behind the container; an element of that id that
    stands before it stays the one that is found. *)
Definition with_content_column (st : State) : State :=
  match chapter_content st with
  | Some _ =>
      if content_behind st
      then set_content_behind false
             (set_chapter_content (Some placeholder_html) st)
      else st
  | None =>
      set_content_behind false
        (set_chapter_content (Some placeholder_html) st)
  end.

Definition appendGrid (single_column : bool) (toc : jsstring) : M unit :=
  _ <~ appendChild (GridNode single_column toc);
  modify with_content_column.

(** The page after [renderUI]: the header and the grid are appended to the
    container.  The click listeners that [attachEventListeners] registers
    are not part of the state. *)
Definition renderUI (this : CourseLoader) : M unit :=
  el <~ querySelector (container this);
  match el with
  | None => ret tt
  | Some _ =>
      n <~ config_field courseName;
      d <~ config_field description;
      v <~ config_field version;
      i <~ config_field institution;
      _ <~ appendChild (HeaderNode (header_html n d v i));
      toc <~ renderTableOfContents;
      env <~ ask;
      appendGrid (innerWidth env <? 768) toc
  end.

Definition showError (message : jsstring) : M unit :=
  contentDiv <~ gets chapter_content;
  match contentDiv with
  | Some _ => modify (set_chapter_content (Some (error_panel message)))
  | None => ret tt
  end.

(** ** Initialisation *)

Definition init (this : CourseLoader) : M unit :=
  try_catch
    (_ <~ loadConfig this;
     renderUI this)
    (fun error => showError (js "Fehler beim Laden der Kurskonfiguration")).

(** ** Vocabulary of the statements

    What the statements below speak about: positions and texts of the
    results, the keys and URLs of the three requests, the outcome of a
    lookup and of a request, and sample inputs. *)

Definition no_ws_head (s : jsstring) : Prop :=
  match s with
  | [] => True
  | c :: _ => is_ws c = false
  end.

Definition marker_tail : jsstring :=
  Eval vm_compute in tail (js "<!-- HIER_STARTET_DER_INHALT -->").

Definition Zsum (l : list Z) : Z := foldr Z.add 0 l.

(** A Number that is a double: the value of a finite one rounds to itself. *)
Definition canonical (t : Number) : Prop :=
  match t with
  | Finite z => Num z = Finite z
  | _ => True
  end.

(** The sum of the integers [l] as the code computes it: each integer
    becomes a Number and each addition rounds. *)
Definition Number_sum (l : list Z) : Number :=
  fold_left (fun total z => Number_add total (Num z)) l (Num 0).

(** The double for an integer and the Number for a double, by the
    specification of IEEE 754 in the standard library ([binary64]: 53 bits
    of precision, exponents up to 1024). *)
Definition double_of (z : Z) : SpecFloat.spec_float :=
  SpecFloat.binary_normalize 53 1024 z 0 false.

Definition Number_of_double (f : SpecFloat.spec_float) : Number :=
  match f with
  | SpecFloat.S754_zero _ => Finite 0
  | SpecFloat.S754_infinity s => Infinity s
  | SpecFloat.S754_nan => NaN
  | SpecFloat.S754_finite s m e =>
      Finite ((if s then -1 else 1) * Z.shiftl (Z.pos m) e)
  end.

(** The first integer written in a duration, zero when there is none. *)
Definition leading_integer (d : jsstring) : Z :=
  match match_digits d with
  | Some m => decimal_value m
  | None => 0
  end.

Definition toc_entry_of (chapter : Chapter) : jsstring :=
  toc_entry (icon chapter) chapter.

Definition total_text (chs : list Chapter) : jsstring :=
  Number_toString (fold_left add_duration chs (Num 0)) ++ js " min".

(** Unfolding of the monad operations in a goal. *)
Ltac msimpl :=
  unfold bind, ret, gets, modify, throw, new_Error, try_catch, ask, await;
  cbv beta iota zeta.

(** The goal of a failure path that ended with a fallback: the run is
    there to read, and the frame facts of the lookup carry over. *)
Ltac fallback Hsave Hsub Hretry :=
  eexists _, _; split; [reflexivity|];
  split; [first [reflexivity | eexists; reflexivity]|];
  split; [exact Hsave|]; split; [exact Hsub|];
  right; exact Hretry.

(** The attribute by which the link of an entry names its chapter. *)
Definition chapter_attr (id : jsstring) : jsstring :=
  js " data-chapter-id=" ++ dq ++ id ++ dq.

Definition is_fetch (e : event) : bool :=
  match e with
  | EFetch _ => true
  | _ => false
  end.

Definition is_save (e : event) : bool :=
  match e with
  | ESaveToCache _ _ | ESetItem _ _ => true
  | _ => false
  end.

Definition chapter_key (this : CourseLoader) (chapter : Chapter) : jsstring :=
  js "chapter_" ++ courseId this ++ js "_" ++ ch_id chapter.

Definition chapter_url (env : Env) (this : CourseLoader) (chapter : Chapter)
    (now : Z) : jsstring :=
  baseUrl this ++ js "/github_content/"
  ++ property_toString env (get_property fileMapping (ch_id chapter))
  ++ js "?t=" ++ Number_toString (Num now).

(** The state after the request of a method that found nothing usable in
    the cache and left it in [st1]: the clock was read for the URL and the
    request was sent. *)
Definition requested (url : jsstring) (st1 : State) : State :=
  tick (emit (EFetch url) (tick st1)).

Definition unmapped_message (chapter : Chapter) : jsstring :=
  js "Keine Datei für Kapitel " ++ ch_id chapter ++ js " definiert".

Definition http_message (r : Response) : jsstring :=
  js "HTTP " ++ Number_toString (Num (status r)).

Definition exercise_key (this : CourseLoader) (chapter : Chapter) : jsstring :=
  js "exercise_" ++ courseId this ++ js "_" ++ ch_id chapter.

Definition exercise_url (this : CourseLoader) (exercise : jsstring) (now : Z)
    : jsstring :=
  baseUrl this ++ js "/github_content/" ++ exercise ++ js "?t="
  ++ Number_toString (Num now).

(** The value of a completed lookup. *)
Definition completed {A} (c : Completion (option A)) : option A :=
  match c with
  | Normal o => o
  | Throw _ => None
  end.

(** A truthy value found in the cache is served, whatever it is. *)
Definition served (this : CourseLoader) (key : jsstring) (env : Env)
    (st : State) : option jsval :=
  if_truthy (completed (fst (getFromCache this key env st))).

(** The outcome of the request a chapter fetch sends behind the lookup. *)
Definition chapter_response (env : Env) (this : CourseLoader)
    (chapter : Chapter) (st : State) : Outcome Response :=
  let st1 := snd (getFromCache this (chapter_key this chapter) env st) in
  net_fetch env (S (ticks st1))
    (chapter_url env this chapter (time_at env (ticks st1))).

Definition exercise_response (env : Env) (this : CourseLoader)
    (chapter : Chapter) (exercise : jsstring) (st : State)
    : Outcome Response :=
  let st1 := snd (getFromCache this (exercise_key this chapter) env st) in
  net_fetch env (S (ticks st1))
    (exercise_url this exercise (time_at env (ticks st1))).

(** A request fails when the promise of [fetch] is rejected (network
    error), when the status is not 2xx, or when the body cannot be read. *)
Definition request_fails (o : Outcome Response) : bool :=
  match o with
  | Rejected _ => true
  | Resolved r =>
      negb (ok r)
      || match text r with
         | Rejected _ => true
         | Resolved _ => false
         end
  end.

Inductive fetcher :=
  | ChapterFetcher
  | ExerciseFetcher.

Definition run_fetcher (f : fetcher) (this : CourseLoader) (chapter : Chapter)
    : M jsval :=
  match f with
  | ChapterFetcher => fetchChapterContent this chapter
  | ExerciseFetcher => fetchExerciseContent this chapter
  end.

Definition fetcher_key (f : fetcher) (this : CourseLoader) (chapter : Chapter)
    : jsstring :=
  match f with
  | ChapterFetcher => chapter_key this chapter
  | ExerciseFetcher => exercise_key this chapter
  end.

(** The failure paths of the two fetchers: the [throw]s of
    [fetchChapterContent] and a rejected promise inside its [try]; the
    three [return ''] of [fetchExerciseContent] that stand for a failure. *)
Definition takes_failure_path (f : fetcher) (env : Env) (this : CourseLoader)
    (chapter : Chapter) (st : State) : bool :=
  match f with
  | ChapterFetcher =>
      match served this (chapter_key this chapter) env st with
      | Some _ => false
      | None =>
          negb (property_truthy (get_property fileMapping (ch_id chapter)))
          || request_fails (chapter_response env this chapter st)
      end
  | ExerciseFetcher =>
      match exercise_ref chapter with
      | None => true
      | Some exercise =>
          match served this (exercise_key this chapter) env st with
          | Some _ => false
          | None =>
              request_fails (exercise_response env this chapter exercise st)
          end
      end
  end.

(** What a fetcher returns in place of the content after a failure. *)
Definition is_fallback (f : fetcher) (v : jsval) : Prop :=
  match f with
  | ChapterFetcher => exists msg, v = VString (error_fragment msg)
  | ExerciseFetcher => v = VString []
  end.

Definition config_key (this : CourseLoader) : jsstring :=
  js "course_config_" ++ courseId this.

Definition config_url (this : CourseLoader) (now : Z) : jsstring :=
  baseUrl this ++ js "/courses/" ++ courseId this ++ js "/config.json?t="
  ++ Number_toString (Num now).

Definition config_response (env : Env) (this : CourseLoader) (st : State)
    : Outcome Response :=
  let st1 := snd (getFromCache this (config_key this) env st) in
  net_fetch env (S (ticks st1)) (config_url this (time_at env (ticks st1))).

Definition init_error_message : jsstring :=
  js "Fehler beim Laden der Kurskonfiguration".

(** The text V8 gives the inherited properties. *)
Definition v8_toString (name : jsstring) : jsstring :=
  if jsstring_eqb name (js "constructor")
  then js "function Object() { [native code] }"
  else if jsstring_eqb name (js "__proto__") then js "[object Object]"
  else js "function " ++ name ++ js "() { [native code] }".

(** A browser whose clock shows [clock] and whose network answers every
    request with [reply]; of the selectors used here only [###] is not
    valid. *)
Definition sample_env (clock : nat -> Z) (reply : Outcome Response) : Env :=
  {| time_at := clock;
     net_fetch := fun _ _ => reply;
     quota_exceeded := fun _ _ _ => false;
     native_toString := v8_toString;
     selector_valid := fun selector => negb (jsstring_eqb selector (js "###"));
     hostname := js "example.org";
     innerWidth := 1024 |}.

Definition steady_clock (n : nat) : Z := 1000 + Z.of_nat n.

Definition page_reply (code : Z) (body : jsstring) : Outcome Response :=
  Resolved {| status := code;
              text := Resolved body;
              json := Rejected {| message := js "SyntaxError" |} |}.

Definition no_options : Options :=
  {| opt_baseUrl := None; opt_courseId := None; opt_container := None;
     opt_cacheEnabled := None; opt_cacheDuration := None |}.

(** A page with an empty container, before anything was loaded. *)
Definition fresh_page : State :=
  {| config := None; currentChapter := None; localStorage := ∅;
     container_el := Some []; chapter_content := None;
     content_behind := false; ticks := 0; trace := [] |}.

Definition sample_chapter (id duration : jsstring) : Chapter :=
  {| ch_id := id; ch_title := js "Titel"; ch_type := js "lesson";
     ch_duration := duration; ch_exercise := None |}.

Definition sample_html : jsstring :=
  js "intro<!-- HIER_STARTET_DER_INHALT -->  <p>Hallo</p> 
<!-- HIER_STARTET_DER_INHALT -->footer".

Definition sample_config : CourseConfig :=
  {| courseName := js "BauMax"; description := js "Situation 1";
     version := js "1.0"; institution := js "Schule";
     chapters := [ sample_chapter (js "1.0") (js "10 min");
                   sample_chapter (js "1.1") (js "5 min");
                   sample_chapter (js "1.2") (js "abc") ] |}.

(** A course of one chapter that lasts 2^53 + 1 minutes. *)
Definition long_course : CourseConfig :=
  {| courseName := js "BauMax"; description := js "Situation 1";
     version := js "1.0"; institution := js "Schule";
     chapters := [ sample_chapter (js "1.0") (js "9007199254740993 min") ] |}.

Definition single_marker_html : jsstring :=
  js "<h1>Titel</h1><!-- HIER_STARTET_DER_INHALT --><p>Text</p>".

Definition online : Env := sample_env steady_clock (page_reply 200 (js "<p>x</p>")).

Definition not_found : Env := sample_env steady_clock (page_reply 404 []).

Definition loader : CourseLoader := constructor online no_options.

(** A page whose instance config is the sample manifest. *)
Definition loaded_page : State := set_config (Some (VConfig sample_config)) fresh_page.

(** A page whose storage holds the sample manifest, written at time 900. *)
Definition cached_page : State :=
  set_localStorage
    {[ js "v1.0.0_course_config_situation_1" := Envelope (VConfig sample_config) 900 ]}
    fresh_page.

(** ** Chapter rendering and selection *)

(** ToString of a value, as [+] and a template literal apply it. *)
Definition jsval_toString (v : jsval) : jsstring :=
  match v with
  | VString s => s
  | VConfig _ => js "[object Object]"
  end.

(** [content += exercise]: one operand is a string, so [+] concatenates. *)
Definition js_plus (a b : jsval) : jsval :=
  VString (jsval_toString a ++ jsval_toString b).

Definition type_label (chapter : Chapter) : jsstring :=
  if jsstring_eqb (ch_type chapter) (js "intro")
  then js "Einführung" else js "Lektion".

Definition chapter_html (content : jsstring) (chapter : Chapter) : jsstring :=
  js "
      <div style=" ++ dq ++ js "animation: fadeIn 0.3s ease;" ++ dq ++ js ">
        <div style=" ++ dq ++ js "
          background: linear-gradient(135deg, #005691, #0078d4);
          color: white;
          padding: 2rem;
          border-radius: 8px;
          margin-bottom: 2rem;
        " ++ dq ++ js ">
          <h2 style=" ++ dq ++ js "margin: 0 0 0.5rem 0; font-size: 1.8em;" ++ dq ++ js ">
            " ++ ch_id chapter ++ js ": " ++ ch_title chapter ++ js "
          </h2>
          <p style=" ++ dq ++ js "margin: 0; opacity: 0.9;" ++ dq ++ js ">
            ⏱️ " ++ ch_duration chapter ++ js " • 📝 " ++ type_label chapter ++ js "
          </p>
        </div>
        <div class=" ++ dq ++ js "chapter-content" ++ dq ++ js ">
          " ++ content ++ js "
        </div>
      </div>
    ".

(** The content pane after [renderChapter]; the scrolling and the link
    handlers that [attachChapterLinkHandlers] registers are not part of the
    state. *)
Definition renderChapter (content : jsval) (chapter : Chapter) : M unit :=
  contentDiv <~ gets chapter_content;
  match contentDiv with
  | None => ret tt
  | Some _ =>
      modify (set_chapter_content
                (Some (chapter_html (jsval_toString content) chapter)))
  end.

(** [href.match(/seite(\d\.\d)/)] at the start of [s]: the capture group
    when [s] begins with [seite], a digit, a dot and a digit. *)
Definition seite_id_at (s : jsstring) : option jsstring :=
  if startsWith (js "seite") s
  then match drop 5 s with
       | a :: b :: c :: _ =>
           if (is_digit a && (b =? 46)%N && is_digit c)%bool
           then Some [a; b; c] else None
       | _ => None
       end
  else None.

(** [href.match(/seite(\d\.\d)/)]: the capture group of the leftmost
    match, [None] when there is no match.  It is the chapter id that
    [attachChapterLinkHandlers] passes to [loadChapter] for a link. *)
Fixpoint chapter_link_target (href : jsstring) : option jsstring :=
  match href with
  | [] => None
  | _ :: rest =>
      match seite_id_at href with
      | Some id => Some id
      | None => chapter_link_target rest
      end
  end.

(** A [.toc-link] element: its [data-chapter-id] and the three style
    properties that [loadChapter] assigns. *)
Record TocLink := {
  link_chapter_id : option jsstring;
  backgroundColor : jsstring;
  fontWeight : jsstring;
  borderLeft : jsstring
}.

(** The callback that [loadChapter] runs on every [.toc-link]. *)
Definition restyle (chapterId : jsstring) (link : TocLink) : TocLink :=
  let active :=
    match link_chapter_id link with
    | Some id => jsstring_eqb id chapterId
    | None => false
    end in
  {| link_chapter_id := link_chapter_id link;
     backgroundColor := if active then js "#e3f2fd" else js "transparent";
     fontWeight := if active then js "bold" else js "normal";
     borderLeft := if active then js "3px solid #005691" else js "none" |}.

(** The state of [loadChapter]: the state of the other methods and the
    [.toc-link] elements of the document. *)
Record Page := {
  page_state : State;
  toc_links : list TocLink
}.

Definition PM (A : Type) : Type := Env -> Page -> Completion A * Page.

Definition retP {A} (a : A) : PM A := fun _ pg => (Normal a, pg).

Definition bindP {A B} (m : PM A) (k : A -> PM B) : PM B :=
  fun env pg =>
    match m env pg with
    | (Normal a, pg') => k a env pg'
    | (Throw e, pg') => (Throw e, pg')
    end.

Definition try_catchP {A} (body : PM A) (handler : JsError -> PM A) : PM A :=
  fun env pg =>
    match body env pg with
    | (Normal a, pg') => (Normal a, pg')
    | (Throw e, pg') => handler e env pg'
    end.

(** A method of the other kind, run on the state inside the page. *)
Definition liftP {A} (m : M A) : PM A :=
  fun env pg =>
    let '(r, st') := m env (page_state pg) in
    (r, {| page_state := st'; toc_links := toc_links pg |}).

Notation "x <~~ m ; k" := (bindP m (fun x => k))
  (at level 20, m at level 100, k at level 200, only parsing) : js_scope.

Definition set_currentChapter (c : option Chapter) (st : State) : State :=
  {| config := config st; currentChapter := c;
     localStorage := localStorage st; container_el := container_el st;
     chapter_content := chapter_content st;
     content_behind := content_behind st; ticks := ticks st;
     trace := trace st |}.

(** [document.querySelectorAll('.toc-link').forEach(...)] of [loadChapter] *)
Definition restyle_links (chapterId : jsstring) : PM unit :=
  fun _ pg =>
    (Normal tt,
     {| page_state := page_state pg;
        toc_links := map (restyle chapterId) (toc_links pg) |}).

Definition not_found_message (chapterId : jsstring) : jsstring :=
  js "Kapitel " ++ chapterId ++ js " nicht gefunden".

Definition load_error_message (chapterId : jsstring) (error : JsError)
    : jsstring :=
  js "Fehler beim Laden von Kapitel " ++ chapterId ++ js ": "
  ++ message error.

Definition loadChapter (this : CourseLoader) (chapterId : jsstring)
    : PM unit :=
  try_catchP
    (chs <~~ liftP config_chapters;
     match List.find (fun ch => jsstring_eqb (ch_id ch) chapterId) chs with
     | None => liftP (new_Error (not_found_message chapterId))
     | Some chapter =>
         _ <~~ liftP (modify (set_currentChapter (Some chapter)));
         _ <~~ restyle_links chapterId;
         content <~~ liftP (fetchChapterContent this chapter);
         content <~~
           match exercise_ref chapter with
           | Some _ =>
               exercise <~~ liftP (fetchExerciseContent this chapter);
               retP (js_plus content exercise)
           | None => retP content
           end;
         liftP (renderChapter content chapter)
     end)
    (fun error => liftP (showError (load_error_message chapterId error))).

(** Whether a link is shown as the active one. *)
Definition highlighted (link : TocLink) : bool :=
  jsstring_eqb (backgroundColor link) (js "#e3f2fd")
  && jsstring_eqb (fontWeight link) (js "bold")
  && jsstring_eqb (borderLeft link) (js "3px solid #005691").

(** ** Vocabulary of the further statements *)



(** The state after [showError], and after [renderChapter]: the pane is
    rewritten when there is one. *)
Definition shown_error (message : jsstring) (st : State) : State :=
  match chapter_content st with
  | Some _ => set_chapter_content (Some (error_panel message)) st
  | None => st
  end.


Definition full_storage : Env :=
  {| time_at := steady_clock;
     net_fetch := fun _ _ => page_reply 200 (js "<p>x</p>");
     quota_exceeded := fun _ _ _ => true;
     native_toString := v8_toString;
     selector_valid := fun selector => negb (jsstring_eqb selector (js "###"));
     hostname := js "example.org";
     innerWidth := 1024 |}.

Definition offline : Env :=
  sample_env steady_clock (Rejected {| message := js "Failed to fetch" |}).

Definition manifest_response : Response :=
  {| status := 200; text := Resolved [];
     json := Resolved (VConfig sample_config) |}.

Definition serving_manifest : Env :=
  sample_env steady_clock (Resolved manifest_response).

Definition uncached_loader : CourseLoader :=
  constructor online
    {| opt_baseUrl := None; opt_courseId := None; opt_container := None;
       opt_cacheEnabled := Some false; opt_cacheDuration := None |}.

Definition zero_ttl_options : Options :=
  {| opt_baseUrl := None; opt_courseId := None; opt_container := None;
     opt_cacheEnabled := None; opt_cacheDuration := Some 0 |}.

(** A loader whose container option is no selector. *)
Definition mistyped_loader : CourseLoader :=
  constructor online
    {| opt_baseUrl := None; opt_courseId := None;
       opt_container := Some (js "###");
       opt_cacheEnabled := None; opt_cacheDuration := None |}.

(** A page whose storage holds an empty fragment for chapter 1.1. *)
Definition empty_fragment_page : State :=
  set_localStorage
    {[ js "v1.0.0_chapter_situation_1_1.1" := Envelope (VString []) 1000 ]}
    fresh_page.

(** A page without the container, with the sample manifest stored. *)
Definition bare_page : State := set_container_el None cached_page.

Definition sample_link (id : jsstring) (active : bool) : TocLink :=
  {| link_chapter_id := Some id;
     backgroundColor := if active then js "#e3f2fd" else js "transparent";
     fontWeight := if active then js "bold" else js "normal";
     borderLeft := if active then js "3px solid #005691" else js "none" |}.

(** The rendered page with chapter 1.0 selected. *)
Definition sample_page : Page :=
  {| page_state := set_chapter_content (Some placeholder_html) loaded_page;
     toc_links := [ sample_link (js "1.0") true;
                    sample_link (js "1.1") false;
                    sample_link (js "1.2") false ] |}.

(** * Properties *)

(** ** Strings: prefixes, occurrences and [split] *)

Lemma startsWith_app (p r : jsstring) : startsWith p (p ++ r) = true.
Proof.
  induction p as [|a p IH]; simpl; [reflexivity|].
  rewrite N.eqb_refl. exact IH.
Qed.

Lemma startsWith_inv (p s : jsstring) :
  startsWith p s = true -> s = p ++ drop (length p) s.
Proof.
  revert s. induction p as [|a p IH]; intros s H; simpl in *.
  - reflexivity.
  - destruct s as [|b s]; [discriminate|].
    apply andb_prop in H as [Hab Hps].
    apply N.eqb_eq in Hab. subst b. simpl. f_equal. apply IH, Hps.
Qed.

Lemma startsWith_head (h c : N) (t s : jsstring) :
  c <> h -> startsWith (h :: t) (c :: s) = false.
Proof.
  intros Hne. simpl. destruct (N.eqb_spec h c); [congruence|reflexivity].
Qed.

Lemma split_go_skip (sep : jsstring) (k : nat) (cur s : jsstring) :
  split_go sep k cur s = split_go sep 0 cur (drop k s).
Proof.
  revert k. induction s as [|c s IH]; intros k.
  - destruct k; reflexivity.
  - destruct k as [|k]; [reflexivity|]. simpl. apply IH.
Qed.

Lemma occurrences_from_shift (sep : jsstring) (i : nat) (s : jsstring) :
  occurrences_from sep i s = map (Nat.add i) (occurrences sep s).
Proof.
  unfold occurrences. revert i.
  induction s as [|c s IH]; intros i; [reflexivity|].
  cbn [occurrences_from].
  rewrite (IH (S i)), (IH 1%nat).
  destruct (startsWith sep (c :: s)); cbn [map]; rewrite map_map.
  - rewrite Nat.add_0_r. f_equal. apply map_ext. intros q. lia.
  - apply map_ext. intros q. lia.
Qed.

Lemma occurrences_cons_false (sep : jsstring) (c : N) (s : jsstring) :
  startsWith sep (c :: s) = false ->
  occurrences sep (c :: s) = map S (occurrences sep s).
Proof.
  intros H. unfold occurrences at 1. cbn [occurrences_from]. rewrite H.
  apply occurrences_from_shift.
Qed.

(** [split_go] cuts at the first occurrence and goes on behind it. *)
Lemma split_go_first (sep : jsstring) (cur s : jsstring) :
  sep <> [] ->
  split_go sep 0 cur s =
    match occurrences sep s with
    | [] => [rev cur ++ s]
    | p :: _ =>
        (rev cur ++ take p s)
          :: split_go sep 0 [] (drop (p + length sep) s)
    end.
Proof.
  intros Hsep. revert cur.
  induction s as [|c s IH]; intros cur.
  - cbn. rewrite app_nil_r. reflexivity.
  - cbn [split_go]. destruct (startsWith sep (c :: s)) eqn:Hp.
    + unfold occurrences. cbn [occurrences_from]. rewrite Hp.
      cbn [take]. rewrite app_nil_r, split_go_skip.
      destruct sep as [|h t]; [congruence|].
      cbn [length Nat.add drop].
      replace (S (length t) - 1)%nat with (length t) by lia. reflexivity.
    + rewrite (occurrences_cons_false _ _ _ Hp), IH.
      destruct (occurrences sep s) as [|p ps]; cbn [map rev take drop Nat.add].
      * rewrite <- app_assoc. reflexivity.
      * rewrite <- app_assoc. reflexivity.
Qed.

Section NoSelfOverlap.

(** A separator whose first code unit does not occur again in it cannot
    overlap itself: behind an occurrence the next one starts after it. *)
Variables (h : N) (t : jsstring).
Hypothesis head_fresh : h ∉ t.

Local Abbreviation sep := (h :: t).

Lemma occurrences_from_fresh (i : nat) (u r : jsstring) :
  h ∉ u ->
  occurrences_from sep i (u ++ r) = occurrences_from sep (i + length u) r.
Proof.
  revert i. induction u as [|c u IH]; intros i Hu.
  - cbn. rewrite Nat.add_0_r. reflexivity.
  - apply not_elem_of_cons in Hu as [Hc Hu].
    cbn [app occurrences_from].
    rewrite startsWith_head by congruence.
    rewrite IH by exact Hu. cbn [length]. f_equal. lia.
Qed.

Lemma occurrences_at_head (s : jsstring) :
  startsWith sep s = true ->
  occurrences sep s =
    0%nat :: map (Nat.add (length sep)) (occurrences sep (drop (length sep) s)).
Proof.
  intros Hp. pose proof (startsWith_inv _ _ Hp) as Hs.
  set (r := drop (length sep) s) in *. rewrite Hs.
  unfold occurrences at 1. cbn [app occurrences_from].
  change (h :: t ++ r) with (sep ++ r).
  rewrite startsWith_app. f_equal.
  rewrite occurrences_from_fresh by exact head_fresh.
  rewrite occurrences_from_shift. reflexivity.
Qed.

Lemma occurrences_after_first (s : jsstring) (p : nat) (ps : list nat) :
  occurrences sep s = p :: ps ->
  ps = map (Nat.add (p + length sep))
         (occurrences sep (drop (p + length sep) s)).
Proof.
  revert p ps. induction s as [|c s IH]; intros p ps H; [discriminate|].
  destruct (startsWith sep (c :: s)) eqn:Hp.
  - rewrite (occurrences_at_head _ Hp) in H. injection H as <- <-.
    reflexivity.
  - rewrite (occurrences_cons_false _ _ _ Hp) in H.
    destruct (occurrences sep s) as [|q qs] eqn:Ho; [discriminate|].
    cbn [map] in H. injection H as <- <-.
    rewrite (IH q qs eq_refl), map_map. cbn [Nat.add drop].
    apply map_ext. intros x. lia.
Qed.

Lemma split_go_length (s cur : jsstring) :
  length (split_go sep 0 cur s) = S (length (occurrences sep s)).
Proof.
  remember (length (occurrences sep s)) as n eqn:Hn.
  revert s cur Hn. induction n as [|n IH]; intros s cur Hn.
  - rewrite split_go_first by discriminate.
    destruct (occurrences sep s); [reflexivity|discriminate].
  - rewrite split_go_first by discriminate.
    destruct (occurrences sep s) as [|p ps] eqn:Ho; [discriminate|].
    cbn [length]. f_equal. apply IH.
    rewrite (occurrences_after_first _ _ _ Ho) in Hn.
    cbn [length] in Hn. rewrite length_map in Hn. lia.
Qed.

(** The parts of [split] are one more than the occurrences. *)
Lemma split_length (s : jsstring) :
  length (split sep s) = S (length (occurrences sep s)).
Proof. apply split_go_length. Qed.

(** With at least two occurrences, the second part is the text between the
    end of the first and the start of the second. *)
Lemma split_second (s : jsstring) (i j : nat) (rest : list nat) :
  occurrences sep s = i :: j :: rest ->
  split sep s !! 1%nat = Some (substring (i + length sep) j s).
Proof.
  intros Ho. unfold split.
  rewrite split_go_first by discriminate. rewrite Ho.
  cbn [lookup list_lookup]. 
  pose proof (occurrences_after_first _ _ _ Ho) as Hrest.
  rewrite split_go_first by discriminate.
  destruct (occurrences sep (drop (i + length sep) s)) as [|q qs];
    [discriminate|].
  cbn [map] in Hrest. injection Hrest as -> _.
  cbn. unfold substring. do 2 f_equal. lia.
Qed.

End NoSelfOverlap.

(** ** Strings: [trim] *)

Lemma trimStart_split (s : jsstring) :
  exists l, s = l ++ trimStart s /\ forallb is_ws l = true.
Proof.
  induction s as [|c s (l & Hs & Hl)]; [exists []; split; reflexivity|].
  cbn [trimStart]. destruct (is_ws c) eqn:Hc.
  - exists (c :: l). cbn. rewrite Hc, Hl, <- Hs. split; reflexivity.
  - exists []. split; reflexivity.
Qed.

Lemma trimStart_head (s : jsstring) : no_ws_head (trimStart s).
Proof.
  induction s as [|c s IH]; [exact I|].
  cbn [trimStart]. destruct (is_ws c) eqn:Hc; [exact IH|exact Hc].
Qed.

Lemma trimStart_fix (s : jsstring) : no_ws_head s -> trimStart s = s.
Proof. destruct s as [|c s]; [reflexivity|]. cbn. intros ->. reflexivity. Qed.

Lemma forallb_rev (f : N -> bool) (l : jsstring) :
  forallb f (rev l) = forallb f l.
Proof.
  induction l as [|c l IH]; [reflexivity|].
  cbn. rewrite forallb_app, IH. cbn. rewrite andb_true_r. apply andb_comm.
Qed.

(** [trim] cuts white space, and only white space, from both ends, and what
    it returns neither starts nor ends with white space. *)
Lemma trim_spec (s : jsstring) :
  exists l r,
    s = l ++ trim s ++ r
    /\ forallb is_ws l = true /\ forallb is_ws r = true
    /\ no_ws_head (trim s) /\ no_ws_head (rev (trim s)).
Proof.
  destruct (trimStart_split s) as (l & Hs & Hl).
  destruct (trimStart_split (rev (trimStart s))) as (r & Hr & Hrws).
  exists l, (rev r). unfold trim, trimEnd.
  set (s1 := trimStart s) in *. set (e := trimStart (rev s1)) in *.
  assert (Hs1 : s1 = rev e ++ rev r).
  { rewrite <- rev_app_distr, <- Hr, rev_involutive. reflexivity. }
  repeat split.
  - rewrite <- Hs1. exact Hs.
  - exact Hl.
  - rewrite forallb_rev. exact Hrws.
  - pose proof (trimStart_head s) as Hh. fold s1 in Hh.
    rewrite Hs1 in Hh. destruct (rev e) as [|c e']; [exact I|exact Hh].
  - rewrite rev_involutive. apply trimStart_head.
Qed.

(** ** Fragment extraction *)

Lemma marker_constructor (env : Env) (options : Options) :
  marker (constructor env options) = 60%N :: marker_tail.
Proof. reflexivity. Qed.

Lemma marker_head_fresh : 60%N ∉ marker_tail.
Proof. apply (bool_decide_unpack _). vm_compute. exact I. Qed.

Lemma extractContent_parts (this : CourseLoader) (html : jsstring) :
  marker this = 60%N :: marker_tail ->
  extractContent this html =
    match occurrences (marker this) html with
    | i :: j :: _ => trim (substring (i + length (marker this)) j html)
    | _ => html
    end.
Proof.
  intros Hm. unfold extractContent. rewrite Hm.
  rewrite (split_length _ _ marker_head_fresh).
  destruct (occurrences (60%N :: marker_tail) html) as [|i [|j rest]] eqn:Ho;
    try reflexivity.
  rewrite (split_second _ _ marker_head_fresh _ _ _ _ Ho). reflexivity.
Qed.

(** C2: when the marker occurs exactly twice in the input, at [i] and at
    [j], [extractContent] returns the text strictly between the two
    occurrences (from the end of the first to the start of the second),
    trimmed: what it returns is that text without a run of white space at
    each end, and neither starts nor ends with white space.  Nothing behind
    the second occurrence is part of it. *)
Theorem extractContent_two_markers (env : Env) (options : Options)
    (html : jsstring) (i j : nat) :
  let this := constructor env options in
  let between := substring (i + length (marker this)) j html in
  occurrences (marker this) html = [i; j] ->
  extractContent this html = trim between
  /\ exists l r,
       between = l ++ extractContent this html ++ r
       /\ forallb is_ws l = true /\ forallb is_ws r = true
       /\ no_ws_head (extractContent this html)
       /\ no_ws_head (rev (extractContent this html)).
Proof.
  intros this between Ho.
  assert (He : extractContent this html = trim between).
  { rewrite (extractContent_parts this html (marker_constructor env options)).
    rewrite Ho. reflexivity. }
  split; [exact He|]. rewrite He. apply trim_spec.
Qed.

(** C3: when the marker occurs in the input not at all or once,
    [extractContent] returns the input as it is. *)
Theorem extractContent_fewer_markers (env : Env) (options : Options)
    (html : jsstring) :
  let this := constructor env options in
  (length (occurrences (marker this) html) <= 1)%nat ->
  extractContent this html = html.
Proof.
  intros this Ho.
  rewrite (extractContent_parts this html (marker_constructor env options)).
  destruct (occurrences (marker this) html) as [|i [|j rest]];
    [reflexivity|reflexivity|]. cbn in Ho. lia.
Qed.

(** ** Cache store *)

Lemma saveToCache_written (env : Env) (this : CourseLoader) (key : jsstring)
    (data : jsval) (st : State) :
  cacheEnabled this = true ->
  quota_exceeded env (localStorage st) (storage_key this key)
    (Envelope data (time_at env (ticks st))) = false ->
  localStorage (snd (saveToCache this key data env st))
    !! storage_key this key
  = Some (Envelope data (time_at env (ticks st))).
Proof.
  intros Hen Hq. unfold saveToCache, bind, modify, try_catch, Date_now, setItem.
  rewrite Hen. cbn. rewrite Hq. cbn. apply lookup_insert_eq.
Qed.

Lemma getFromCache_envelope (env : Env) (this : CourseLoader) (key : jsstring)
    (data : jsval) (timestamp : Z) (st : State) :
  cacheEnabled this = true ->
  localStorage st !! storage_key this key = Some (Envelope data timestamp) ->
  getFromCache this key env st =
    if time_at env (ticks st) - timestamp >? cacheDuration this
    then (Normal None,
          emit (ERemoveItem (storage_key this key))
            (set_localStorage
               (delete (storage_key this key) (localStorage st)) (tick st)))
    else (Normal (Some data), tick st).
Proof.
  intros Hen Hit.
  unfold getFromCache, bind, try_catch, getItem, gets, Date_now, removeItem,
    modify, ret.
  rewrite Hen. cbn. rewrite Hit. cbn.
  destruct (time_at env (ticks st) - timestamp >? cacheDuration this);
    reflexivity.
Qed.

(** C1: an entry written by [saveToCache] at time [T] (caching enabled, the
    write accepted by the storage) and still stored under its key is
    returned by a [getFromCache] at any time before [T + D], where [D] is
    the TTL; a [getFromCache] at any time after [T + D] returns [null] and
    leaves no entry under the key. *)
Theorem cache_entry_expires_after_ttl (env : Env) (this : CourseLoader)
    (key : jsstring) (data : jsval) (st st2 : State) :
  let T := time_at env (ticks st) in
  let D := cacheDuration this in
  let k := storage_key this key in
  let st1 := snd (saveToCache this key data env st) in
  let t := time_at env (ticks st2) in
  cacheEnabled this = true ->
  quota_exceeded env (localStorage st) k (Envelope data T) = false ->
  localStorage st2 !! k = localStorage st1 !! k ->
  (t < T + D ->
     fst (getFromCache this key env st2) = Normal (Some data)
     /\ localStorage (snd (getFromCache this key env st2))
        = localStorage st2)
  /\ (T + D < t ->
        fst (getFromCache this key env st2) = Normal None
        /\ localStorage (snd (getFromCache this key env st2)) !! k = None).
Proof.
  intros T D k st1 t Hen Hq Hsame. subst T D k st1 t.
  rewrite (saveToCache_written env this key data st Hen Hq) in Hsame.
  rewrite (getFromCache_envelope env this key data _ st2 Hen Hsame).
  destruct (Z.gtb_spec (time_at env (ticks st2) - time_at env (ticks st))
              (cacheDuration this)) as [Hgt|Hle];
    split; intros Ht; try lia.
  - split; [reflexivity|]. cbn. apply lookup_delete_eq.
  - split; reflexivity.
Qed.

(** At the boundary [T + D] itself the entry is still returned. *)
Lemma cache_entry_at_ttl (env : Env) (this : CourseLoader) (key : jsstring)
    (data : jsval) (timestamp : Z) (st : State) :
  cacheEnabled this = true ->
  localStorage st !! storage_key this key = Some (Envelope data timestamp) ->
  time_at env (ticks st) = timestamp + cacheDuration this ->
  fst (getFromCache this key env st) = Normal (Some data).
Proof.
  intros Hen Hit Ht. rewrite (getFromCache_envelope _ _ _ _ _ _ Hen Hit).
  destruct (Z.gtb_spec (time_at env (ticks st) - timestamp)
              (cacheDuration this)); [lia|reflexivity].
Qed.

(** ** Total duration *)

Lemma is_digit_range (c : N) : is_digit c = true -> (48 <= c <= 57)%N.
Proof.
  unfold is_digit. intros H. apply andb_prop in H as [H1 H2].
  apply N.leb_le in H1, H2. lia.
Qed.

Lemma is_digit_not_ws (c : N) : is_digit c = true -> is_ws c = false.
Proof.
  intros H. apply is_digit_range in H.
  assert (Hc : In c [48; 49; 50; 51; 52; 53; 54; 55; 56; 57]%N).
  { cbn. lia. }
  cbn in Hc. intuition (subst; reflexivity).
Qed.

Lemma takeDigits_digits (s : jsstring) : forallb is_digit (takeDigits s) = true.
Proof.
  induction s as [|c s IH]; [reflexivity|]. cbn [takeDigits].
  destruct (is_digit c) eqn:Hc; [|reflexivity]. cbn. rewrite Hc. exact IH.
Qed.

Lemma takeDigits_all (ds : jsstring) :
  forallb is_digit ds = true -> takeDigits ds = ds.
Proof.
  induction ds as [|c ds IH]; [reflexivity|]. cbn. intros H.
  apply andb_prop in H as [Hc Hds]. rewrite Hc, IH by exact Hds. reflexivity.
Qed.

Lemma takeDigits_app (ds rest : jsstring) :
  forallb is_digit ds = true ->
  match rest with [] => True | c :: _ => is_digit c = false end ->
  takeDigits (ds ++ rest) = ds.
Proof.
  intros Hds Hrest. induction ds as [|c ds IH]; cbn in *.
  - destruct rest as [|c rest]; [reflexivity|]. cbn. rewrite Hrest. reflexivity.
  - apply andb_prop in Hds as [Hc Hds]. rewrite Hc, IH by exact Hds.
    reflexivity.
Qed.

(** On a run of digits [parseInt] is the decimal value. *)
Lemma parseInt_digits (ds : jsstring) :
  ds <> [] -> forallb is_digit ds = true ->
  parseInt ds = Num (decimal_value ds).
Proof.
  intros Hne Hds. destruct ds as [|c ds]; [congruence|].
  pose proof Hds as Hall. cbn in Hds. apply andb_prop in Hds as [Hc Hds].
  pose proof (is_digit_range c Hc) as Rc.
  unfold parseInt. rewrite (trimStart_fix (c :: ds))
    by (cbn; apply is_digit_not_ws, Hc).
  destruct (N.eqb_spec c 45) as [?|_]; [lia|].
  destruct (N.eqb_spec c 43) as [?|_]; [lia|].
  rewrite (takeDigits_all _ Hall).
  assert (Hdec : Num (1 * decimal_value (c :: ds)) = Num (decimal_value (c :: ds))).
  { f_equal. lia. }
  destruct ds as [|b ds]; [exact Hdec|].
  cbn in Hds. apply andb_prop in Hds as [Hb _].
  pose proof (is_digit_range b Hb) as Rb.
  destruct (N.eqb_spec b 120) as [?|_]; [lia|].
  destruct (N.eqb_spec b 88) as [?|_]; [lia|].
  rewrite andb_false_r. exact Hdec.
Qed.

Lemma match_digits_some (s m : jsstring) :
  match_digits s = Some m -> m <> [] /\ forallb is_digit m = true.
Proof.
  revert m. induction s as [|c s IH]; intros m; [discriminate|].
  cbn [match_digits]. destruct (is_digit c) eqn:Hc; [|apply IH].
  intros [= <-]. split; [|apply (takeDigits_digits (c :: s))].
  cbn [takeDigits]. rewrite Hc. discriminate.
Qed.

Lemma match_digits_none (s : jsstring) :
  forallb (fun c => negb (is_digit c)) s = true -> match_digits s = None.
Proof.
  induction s as [|c s IH]; [reflexivity|]. cbn. intros H.
  apply andb_prop in H as [Hc Hs]. apply negb_true_iff in Hc.
  rewrite Hc. apply IH, Hs.
Qed.

Lemma match_digits_run (pre ds rest : jsstring) :
  forallb (fun c => negb (is_digit c)) pre = true ->
  ds <> [] -> forallb is_digit ds = true ->
  match rest with [] => True | c :: _ => is_digit c = false end ->
  match_digits (pre ++ ds ++ rest) = Some ds.
Proof.
  intros Hpre Hne Hds Hrest. induction pre as [|c pre IH].
  - destruct ds as [|d ds]; [congruence|]. cbn [app match_digits].
    pose proof Hds as Hall. cbn in Hds. apply andb_prop in Hds as [Hd _].
    rewrite Hd. f_equal. apply (takeDigits_app (d :: ds)); assumption.
  - cbn in Hpre. apply andb_prop in Hpre as [Hc Hpre].
    apply negb_true_iff in Hc. cbn [app match_digits]. rewrite Hc.
    apply IH, Hpre.
Qed.

(** *** Doubles *)

Lemma round_to_53_bits_small (n : Z) :
  0 <= n < 2 ^ 53 -> round_to_53_bits n = n.
Proof.
  intros Hn. unfold round_to_53_bits.
  assert (H : Z.log2 n - 52 <= 0).
  { destruct (Z.eq_dec n 0) as [->|Hz]; [cbn; lia|].
    assert (Z.log2 n < 53) by (apply Z.log2_lt_pow2; lia). lia. }
  destruct (Z.leb_spec (Z.log2 n - 52) 0); [reflexivity|lia].
Qed.

(** The parts of a magnitude of 54 bits or more: the 53 leading bits [q]
    and the weight [2 ^ shift] of the last of them. *)
Lemma leading_bits (n : Z) :
  2 ^ 53 <= n ->
  let shift := Z.log2 n - 52 in
  1 <= shift /\ 2 ^ 52 <= n / 2 ^ shift < 2 ^ 53.
Proof.
  intros Hn shift.
  assert (HL : 53 <= Z.log2 n) by (apply Z.log2_le_pow2; lia).
  assert (Hpos : 0 < 2 ^ shift) by (apply Z.pow_pos_nonneg; lia).
  destruct (Z.log2_spec n ltac:(lia)) as [Hlo Hhi].
  replace (Z.log2 n) with (52 + shift) in Hlo by lia.
  replace (Z.succ (Z.log2 n)) with (53 + shift) in Hhi by lia.
  rewrite Z.pow_add_r in Hlo, Hhi by lia.
  split; [lia|]. split.
  - apply Z.div_le_lower_bound; lia.
  - apply Z.div_lt_upper_bound; lia.
Qed.

Lemma round_to_53_bits_cases (n : Z) :
  2 ^ 53 <= n ->
  exists q shift,
    1 <= shift /\ 2 ^ 52 <= q <= 2 ^ 53
    /\ round_to_53_bits n = q * 2 ^ shift
    /\ Z.log2 n = 52 + shift.
Proof.
  intros Hn. destruct (leading_bits n Hn) as [Hs Hq]. cbv zeta in Hs, Hq.
  unfold round_to_53_bits.
  set (shift := Z.log2 n - 52) in *.
  destruct (Z.leb_spec shift 0); [lia|].
  rewrite Z.shiftr_div_pow2 by lia.
  set (q := n / 2 ^ shift) in *. cbv zeta.
  rewrite !Z.shiftl_mul_pow2 by lia.
  assert (Hlog : Z.log2 n = 52 + shift) by (unfold shift; lia).
  clearbody q shift.
  destruct ((_ <? _) || _)%bool.
  - exists (q + 1), shift. split; [lia|]. split; [lia|].
    split; [reflexivity|lia].
  - exists q, shift. split; [lia|]. split; [lia|]. split; [reflexivity|lia].
Qed.

Lemma round_to_53_bits_large (n : Z) :
  2 ^ 53 <= n -> 2 ^ 53 <= round_to_53_bits n.
Proof.
  intros Hn.
  destruct (round_to_53_bits_cases n Hn) as (q & shift & Hs & Hq & -> & _).
  assert (2 ^ 1 <= 2 ^ shift) by (apply Z.pow_le_mono_r; lia).
  change (2 ^ 53) with (2 ^ 52 * 2 ^ 1). nia.
Qed.

Lemma round_to_53_bits_nonneg (n : Z) : 0 <= n -> 0 <= round_to_53_bits n.
Proof.
  intros Hn. destruct (Z.lt_ge_cases n (2 ^ 53)).
  - rewrite round_to_53_bits_small; lia.
  - pose proof (round_to_53_bits_large n ltac:(lia)). lia.
Qed.

Lemma round_to_53_bits_idem (n : Z) :
  0 <= n -> round_to_53_bits (round_to_53_bits n) = round_to_53_bits n.
Proof.
  intros Hn. destruct (Z.lt_ge_cases n (2 ^ 53)) as [Hs|Hl].
  - rewrite (round_to_53_bits_small n) by lia.
    apply round_to_53_bits_small. lia.
  - destruct (round_to_53_bits_cases n ltac:(lia))
      as (q & shift & Hs & Hq & -> & _).
    assert (Hpos : 0 < 2 ^ shift) by (apply Z.pow_pos_nonneg; lia).
    assert (Hcase : q < 2 ^ 53 \/ q = 2 ^ 53) by lia.
    assert (Hgo : forall q' shift', 1 <= shift' -> 2 ^ 52 <= q' < 2 ^ 53 ->
              round_to_53_bits (q' * 2 ^ shift') = q' * 2 ^ shift').
    { clear. intros q shift Hs Hq.
      assert (Hpos : 0 < 2 ^ shift) by (apply Z.pow_pos_nonneg; lia).
      assert (Hlog : Z.log2 (q * 2 ^ shift) = 52 + shift).
      { apply Z.log2_unique; [lia|].
        replace (Z.succ (52 + shift)) with (53 + shift) by lia.
        rewrite !Z.pow_add_r by lia. nia. }
      unfold round_to_53_bits. rewrite Hlog.
      replace (52 + shift - 52) with shift by lia.
      destruct (Z.leb_spec shift 0); [lia|].
      rewrite Z.shiftr_div_pow2 by lia. rewrite Z.div_mul by lia.
      cbv zeta. rewrite !Z.shiftl_mul_pow2 by lia.
      replace (q * 2 ^ shift - q * 2 ^ shift) with 0 by lia.
      assert (Hhalf : 0 < 1 * 2 ^ (shift - 1))
        by (pose proof (Z.pow_pos_nonneg 2 (shift - 1)); lia).
      destruct (Z.ltb_spec (1 * 2 ^ (shift - 1)) 0); [lia|].
      destruct (Z.eqb_spec 0 (1 * 2 ^ (shift - 1))); [lia|]. reflexivity. }
    destruct Hcase as [Hq'| ->].
    + apply Hgo; lia.
    + replace (2 ^ 53 * 2 ^ shift) with (2 ^ 52 * 2 ^ (shift + 1)).
      * apply Hgo; lia.
      * rewrite Z.pow_add_r by lia. change (2 ^ 53) with (2 ^ 52 * 2 ^ 1). ring.
Qed.

Lemma Num_safe (z : Z) : Z.abs z < 2 ^ 53 -> Num z = Finite z.
Proof.
  intros Hz. unfold Num. rewrite round_to_53_bits_small by lia.
  destruct (Z.leb_spec (2 ^ 1024) (Z.abs z)) as [H|_].
  - assert (2 ^ 53 <= 2 ^ 1024) by (apply Z.pow_le_mono_r; lia). lia.
  - f_equal. lia.
Qed.

Lemma Num_safe_inv (c v : Z) : Num c = Finite v -> Z.abs v < 2 ^ 53 -> c = v.
Proof.
  intros Hc Hv. destruct (Z.lt_ge_cases (Z.abs c) (2 ^ 53)) as [Hs|Hl].
  - rewrite Num_safe in Hc by exact Hs. congruence.
  - pose proof (round_to_53_bits_large (Z.abs c) Hl) as Hr.
    unfold Num in Hc. destruct (_ <=? _); [discriminate|].
    injection Hc as <-. lia.
Qed.

Lemma Num_idem (z m : Z) : Num z = Finite m -> Num m = Finite m.
Proof.
  unfold Num. intros H.
  destruct (Z.leb_spec (2 ^ 1024) (round_to_53_bits (Z.abs z))) as [|Hlt];
    [discriminate|].
  injection H as <-.
  pose proof (round_to_53_bits_nonneg (Z.abs z) ltac:(lia)) as Hr.
  pose proof (round_to_53_bits_idem (Z.abs z) ltac:(lia)) as Hi.
  set (r := round_to_53_bits (Z.abs z)) in *.
  assert (Habs : Z.abs (Z.sgn z * r) = r
                 \/ (z = 0 /\ Z.abs (Z.sgn z * r) = 0)) by lia.
  destruct Habs as [-> | [-> Hzero]].
  - rewrite Hi. destruct (Z.leb_spec (2 ^ 1024) r); [lia|].
    f_equal. destruct (Z.eq_dec r 0) as [->|]; lia.
  - cbn. reflexivity.
Qed.

Lemma Num_nonneg (z : Z) :
  0 <= z -> Num z = Infinity false \/ exists m, Num z = Finite m /\ 0 <= m.
Proof.
  intros Hz. unfold Num.
  pose proof (round_to_53_bits_nonneg (Z.abs z) ltac:(lia)) as Hr.
  destruct (_ <=? _).
  - left. destruct (Z.ltb_spec z 0); [lia|reflexivity].
  - right. eexists. split; [reflexivity|]. nia.
Qed.

Lemma shortest_go_sound (fuel : nat) (v scale : Z) :
  shortest_go fuel v scale = v \/ rounds_to v (shortest_go fuel v scale) = true.
Proof.
  revert scale. induction fuel as [|fuel IH]; intros scale; [left; reflexivity|].
  cbn [shortest_go]. cbv zeta.
  destruct (rounds_to v (v / scale * scale)) eqn:Hlo,
           (rounds_to v (v / scale * scale + scale)) eqn:Hhi.
  - destruct (_ || _)%bool; right; assumption.
  - right; assumption.
  - right; assumption.
  - apply IH.
Qed.

Lemma rounds_to_Num (v c : Z) : rounds_to v c = true -> Num c = Finite v.
Proof.
  unfold rounds_to. destruct (Num c) as [| |m]; try discriminate.
  intros H. apply Z.eqb_eq in H. congruence.
Qed.

Lemma shortest_Num (v : Z) : Num v = Finite v -> Num (shortest v) = Finite v.
Proof.
  intros Hv. unfold shortest.
  destruct (shortest_go_sound (length (decimal (Z.to_N v))) v
              (10 ^ (Z.of_nat (length (decimal (Z.to_N v))) - 1))) as [->|H].
  - exact Hv.
  - apply rounds_to_Num, H.
Qed.

Lemma shortest_safe (v : Z) : Z.abs v < 2 ^ 53 -> shortest v = v.
Proof.
  intros Hv. apply Num_safe_inv; [|exact Hv].
  apply shortest_Num, Num_safe, Hv.
Qed.

(** The rounding and the addition agree with the specification of IEEE 754
    in the standard library, here on integers around the places where the
    precision and the range end. *)
Example Num_agrees_with_binary64 :
  let integers :=
    [ 0; 1; 15; -42; 2 ^ 53 - 1; 2 ^ 53; 2 ^ 53 + 1; 2 ^ 53 + 2; 2 ^ 53 + 3;
      - (2 ^ 53 + 3); 2 ^ 54 + 2; 2 ^ 54 + 6; 10 ^ 21; 10 ^ 23;
      2 ^ 1024 - 2 ^ 970 - 1; 2 ^ 1024 - 2 ^ 970; - (10 ^ 400) ] in
  let sums :=
    [ (10, 5); (2 ^ 53, 1); (2 ^ 53, 3); (2 ^ 53 + 2, 1); (2 ^ 53, - 1);
      (10 ^ 21, 10 ^ 5); (2 ^ 1023, 2 ^ 1023); (2 ^ 1023, - (2 ^ 1023));
      (10 ^ 400, 1); (10 ^ 400, - (10 ^ 400)) ] in
  map Num integers = map (fun z => Number_of_double (double_of z)) integers
  /\ map (fun p => Number_add (Num (fst p)) (Num (snd p))) sums
     = map (fun p => Number_of_double
                       (SpecFloat.SFadd 53 1024 (double_of (fst p))
                          (double_of (snd p)))) sums.
Proof. cbv zeta. split; vm_compute; reflexivity. Qed.

(** Below 2^53 the text of a Number is the digits of its value. *)
Lemma Number_toString_safe (z : Z) :
  0 <= z < 2 ^ 53 -> Number_toString (Finite z) = decimal (Z.to_N z).
Proof.
  intros Hz. unfold Number_toString, format_digits.
  destruct (Z.ltb_spec z 0); [lia|].
  rewrite Z.abs_eq, shortest_safe by lia.
  destruct (Z.ltb_spec z (10 ^ 21)); [reflexivity|].
  assert (2 ^ 53 <= 10 ^ 21) by (vm_compute; discriminate). lia.
Qed.

(** *** The sum of the durations *)

Lemma leading_integer_nonneg (d : jsstring) : 0 <= leading_integer d.
Proof.
  unfold leading_integer.
  destruct (match_digits d) as [m|] eqn:Hm; [|lia].
  destruct (match_digits_some _ _ Hm) as [_ Hds]. clear Hm.
  unfold decimal_value.
  assert (H : forall v, 0 <= v ->
            0 <= fold_left (fun acc c => acc * 10 + digit_value c) m v);
    [|apply H; lia].
  induction m as [|c m IH]; intros v Hv; [exact Hv|].
  cbn in Hds. apply andb_prop in Hds as [Hc Hds]. cbn [fold_left].
  apply (IH Hds). pose proof (is_digit_range c Hc). unfold digit_value. lia.
Qed.

Lemma Zsum_nonneg (l : list Z) : Forall (Z.le 0) l -> 0 <= Zsum l.
Proof.
  induction 1 as [|z l Hz _ IH]; cbn; [lia|]. unfold Zsum in IH. lia.
Qed.

Lemma leading_integers_nonneg (chs : list Chapter) :
  Forall (Z.le 0) (map (fun ch => leading_integer (ch_duration ch)) chs).
Proof.
  induction chs as [|ch chs IH]; cbn [map]; constructor;
    [apply leading_integer_nonneg|exact IH].
Qed.

Lemma canonical_add (t : Number) (z : Z) : canonical (Number_add t (Num z)).
Proof.
  destruct t as [|s|x]; cbn [Number_add].
  - exact I.
  - destruct (Num z); cbn; [exact I| |exact I]. destruct (Bool.eqb _ _); exact I.
  - destruct (Num z) as [|s|y] eqn:Hz; cbn [canonical]; [exact I|exact I|].
    destruct (Num (x + y)) as [|s|m] eqn:Hm; cbn [canonical]; [exact I|exact I|].
    apply (Num_idem _ _ Hm).
Qed.

(** One step of the loop is one rounded addition. *)
Lemma add_duration_sum (t : Number) (ch : Chapter) :
  canonical t ->
  add_duration t ch = Number_add t (Num (leading_integer (ch_duration ch))).
Proof.
  intros Ht. unfold add_duration, leading_integer.
  destruct (match_digits (ch_duration ch)) as [m|] eqn:Hm.
  - destruct (match_digits_some _ _ Hm) as [Hne Hds].
    rewrite (parseInt_digits m Hne Hds). reflexivity.
  - change (Num 0) with (Finite 0).
    destruct t as [|s|x]; cbn [Number_add]; [reflexivity|reflexivity|].
    rewrite Z.add_0_r. symmetry. exact Ht.
Qed.

Lemma fold_add_duration (chs : list Chapter) (t : Number) :
  canonical t ->
  fold_left add_duration chs t
  = fold_left (fun total z => Number_add total (Num z))
      (map (fun ch => leading_integer (ch_duration ch)) chs) t.
Proof.
  revert t. induction chs as [|ch chs IH]; intros t Ht; [reflexivity|].
  cbn [fold_left map]. rewrite (add_duration_sum t ch Ht).
  apply IH, canonical_add.
Qed.

(** As long as the exact sum stays below 2^53 no addition rounds. *)
Lemma Number_sum_exact (l : list Z) (a : Z) :
  Forall (Z.le 0) l -> 0 <= a -> a + Zsum l < 2 ^ 53 ->
  fold_left (fun total z => Number_add total (Num z)) l (Finite a)
  = Finite (a + Zsum l).
Proof.
  intros Hl. revert a. induction Hl as [|z l Hz Hl IH]; intros a Ha Hsum.
  - cbn. f_equal. lia.
  - cbn [fold_left Zsum foldr] in *. pose proof (Zsum_nonneg l Hl) as Hrest.
    unfold Zsum in Hrest, IH.
    rewrite (Num_safe z) by lia. cbn [Number_add].
    rewrite (Num_safe (a + z)) by lia.
    rewrite IH by lia. f_equal. lia.
Qed.

(** C6: for a loaded manifest [getTotalDuration] returns the text of [N]
    followed by [ min], where [N] is the sum over the chapters, in order,
    of the first integer written in the chapter's duration, computed as
    the code computes it, in Numbers: a duration without a digit counts
    zero, and a duration whose first run of digits is [ds] counts the
    decimal value of [ds].  Whenever the exact sum is below 2^53, [N] is
    that sum and the text is its decimal digits.  With the durations
    [10 min], [5 min], [abc] the result is [15 min]. *)
Theorem getTotalDuration_sum (env : Env) (st : State) (c : CourseConfig) :
  config st = Some (VConfig c) ->
  let integers :=
    map (fun ch => leading_integer (ch_duration ch)) (chapters c) in
  getTotalDuration env st =
    (Normal (Number_toString (Number_sum integers) ++ js " min"), st)
  /\ (Zsum integers < 2 ^ 53 ->
      Number_sum integers = Finite (Zsum integers)
      /\ getTotalDuration env st =
           (Normal (decimal (Z.to_N (Zsum integers)) ++ js " min"), st))
  /\ (forall d, forallb (fun x => negb (is_digit x)) d = true ->
                leading_integer d = 0)
  /\ (forall pre ds rest,
        forallb (fun x => negb (is_digit x)) pre = true ->
        ds <> [] -> forallb is_digit ds = true ->
        match rest with [] => True | x :: _ => is_digit x = false end ->
        leading_integer (pre ++ ds ++ rest) = decimal_value ds)
  /\ (map ch_duration (chapters c) = [js "10 min"; js "5 min"; js "abc"] ->
      fst (getTotalDuration env st) = Normal (js "15 min")).
Proof.
  intros Hc integers.
  assert (Hrun : getTotalDuration env st =
    (Normal (Number_toString (Number_sum integers) ++ js " min"), st)).
  { unfold getTotalDuration, config_chapters, bind, gets, ret. rewrite Hc.
    rewrite fold_add_duration by (apply (Num_idem 0), eq_refl). reflexivity. }
  split; [exact Hrun|]. split; [|split; [|split]].
  - intros Hsum.
    pose proof (leading_integers_nonneg (chapters c)) as Hpos.
    fold integers in Hpos.
    pose proof (Zsum_nonneg integers Hpos) as Hnn.
    assert (Hexact : Number_sum integers = Finite (Zsum integers)).
    { unfold Number_sum. change (Num 0) with (Finite 0).
      rewrite (Number_sum_exact integers 0 Hpos) by lia. reflexivity. }
    split; [exact Hexact|].
    rewrite Hrun, Hexact, Number_toString_safe by lia. reflexivity.
  - intros d Hd. unfold leading_integer. rewrite match_digits_none by exact Hd.
    reflexivity.
  - intros pre ds rest Hpre Hne Hds Hrest. unfold leading_integer.
    rewrite match_digits_run by assumption. reflexivity.
  - intros Hd. rewrite Hrun. cbn [fst]. subst integers.
    rewrite <- (map_map ch_duration leading_integer), Hd. reflexivity.
Qed.

(** ** Table of contents *)

Lemma fold_left_append {A} (f : A -> jsstring) (l : list A) (init : jsstring) :
  fold_left (fun html x => html ++ f x) l init = init ++ concat (map f l).
Proof.
  revert init. induction l as [|x l IH]; intros init; cbn [fold_left map concat].
  - rewrite app_nil_r. reflexivity.
  - rewrite IH, <- app_assoc. reflexivity.
Qed.

Lemma getTotalDuration_run (env : Env) (st : State) (c : CourseConfig) :
  config st = Some (VConfig c) ->
  getTotalDuration env st = (Normal (total_text (chapters c)), st).
Proof.
  intros Hc. unfold getTotalDuration, config_chapters. msimpl.
  rewrite Hc. reflexivity.
Qed.

Lemma renderTableOfContents_run (env : Env) (st : State) (c : CourseConfig) :
  config st = Some (VConfig c) ->
  renderTableOfContents env st =
    (Normal (toc_head ++ concat (map toc_entry_of (chapters c))
             ++ toc_tail (total_text (chapters c))), st).
Proof.
  intros Hc. unfold renderTableOfContents, config_chapters. msimpl.
  rewrite Hc. msimpl. rewrite (getTotalDuration_run env st c Hc).
  rewrite (fold_left_append toc_entry_of), <- app_assoc. reflexivity.
Qed.

Lemma concat_entries_order {A} (f : A -> jsstring) (l : list A) (i j : nat)
    (x y : A) :
  (i < j)%nat -> l !! i = Some x -> l !! j = Some y ->
  exists pre mid post, concat (map f l) = pre ++ f x ++ mid ++ f y ++ post.
Proof.
  intros Hij Hx Hy.
  pose proof (take_drop_middle l i x Hx) as Hl.
  assert (Hy' : drop (S i) l !! (j - S i)%nat = Some y).
  { rewrite lookup_drop. replace (S i + (j - S i))%nat with j by lia. exact Hy. }
  pose proof (take_drop_middle _ _ _ Hy') as Hd.
  exists (concat (map f (take i l))),
    (concat (map f (take (j - S i) (drop (S i) l)))),
    (concat (map f (drop (S (j - S i)) (drop (S i) l)))).
  rewrite <- Hl at 1. rewrite <- Hd at 1.
  rewrite !map_app, !concat_app. cbn [map concat].
  rewrite !map_app, !concat_app. cbn [map concat]. reflexivity.
Qed.

Lemma toc_entry_names_chapter (chapter : Chapter) :
  exists pre post,
    toc_entry_of chapter = pre ++ chapter_attr (ch_id chapter) ++ post.
Proof.
  unfold toc_entry_of, toc_entry, chapter_attr.
  match goal with
  | |- exists pre post,
         ?a ++ ?b ++ ?c ++ ?d ++ ?e ++ ?f ++ ?g ++ ?h ++ _ = _ =>
      exists (a ++ b ++ c ++ d ++ e ++ f ++ g ++ h)
  end.
  eexists. rewrite <- !app_assoc. reflexivity.
Qed.

(** C9: for a loaded manifest the table of contents is the fixed head, then
    one entry for each chapter of [chapters], in the order of [chapters],
    then the fixed tail; so the entry of a chapter that comes earlier in
    the manifest stands before the entry of one that comes later.  For the
    chapters 1.0 and 1.1 in that order, the entry of 1.0, whose link names
    1.0, is directly followed by the entry of 1.1, whose link names 1.1. *)
Theorem renderTableOfContents_manifest_order (env : Env) (st : State)
    (c : CourseConfig) :
  config st = Some (VConfig c) ->
  exists html,
    renderTableOfContents env st = (Normal html, st)
    /\ html = toc_head ++ concat (map toc_entry_of (chapters c))
              ++ toc_tail (total_text (chapters c))
    /\ length (map toc_entry_of (chapters c)) = length (chapters c)
    /\ (forall i j ci cj,
          (i < j)%nat -> chapters c !! i = Some ci ->
          chapters c !! j = Some cj ->
          exists pre mid post,
            html = pre ++ toc_entry_of ci ++ mid ++ toc_entry_of cj ++ post)
    /\ (forall c0 c1,
          chapters c = [c0; c1] ->
          ch_id c0 = js "1.0" -> ch_id c1 = js "1.1" ->
          html = toc_head ++ toc_entry_of c0 ++ toc_entry_of c1
                 ++ toc_tail (total_text [c0; c1])
          /\ exists pre0 post0 pre1 post1,
               toc_entry_of c0 = pre0 ++ chapter_attr (js "1.0") ++ post0
               /\ toc_entry_of c1 = pre1 ++ chapter_attr (js "1.1") ++ post1).
Proof.
  intros Hc. eexists. split; [apply renderTableOfContents_run, Hc|].
  split; [reflexivity|]. split; [apply length_map|]. split.
  - intros i j ci cj Hij Hi Hj.
    destruct (concat_entries_order toc_entry_of _ i j ci cj Hij Hi Hj)
      as (pre & mid & post & Heq).
    exists (toc_head ++ pre), mid, (post ++ toc_tail (total_text (chapters c))).
    rewrite Heq, <- !app_assoc. reflexivity.
  - intros c0 c1 Hchs H0 H1. split.
    + rewrite Hchs. cbn [map concat].
      rewrite app_nil_r, <- app_assoc. reflexivity.
    + destruct (toc_entry_names_chapter c0) as (pre0 & post0 & E0).
      destruct (toc_entry_names_chapter c1) as (pre1 & post1 & E1).
      rewrite H0 in E0. rewrite H1 in E1.
      exists pre0, post0, pre1, post1. split; assumption.
Qed.

(** ** Running the cache store *)

(** [saveToCache] never throws. *)
Lemma saveToCache_run (env : Env) (this : CourseLoader) (key : jsstring)
    (data : jsval) (st : State) :
  saveToCache this key data env st
  = (Normal tt, snd (saveToCache this key data env st)).
Proof.
  unfold saveToCache, Date_now, setItem. msimpl.
  destruct (cacheEnabled this); cbn [negb]; [|reflexivity].
  destruct (quota_exceeded env _ _ _); reflexivity.
Qed.

(** The three ways a lookup ends: nothing usable (the state is untouched),
    a fresh envelope (only the clock was read), an expired envelope (the
    entry is removed). *)
Lemma getFromCache_cases (env : Env) (this : CourseLoader) (key : jsstring)
    (st : State) :
  let k := storage_key this key in
  getFromCache this key env st = (Normal None, st)
  \/ (exists data timestamp,
        localStorage st !! k = Some (Envelope data timestamp)
        /\ getFromCache this key env st = (Normal (Some data), tick st))
  \/ (exists data timestamp,
        localStorage st !! k = Some (Envelope data timestamp)
        /\ getFromCache this key env st =
             (Normal None,
              emit (ERemoveItem k)
                (set_localStorage (delete k (localStorage st)) (tick st)))).
Proof.
  intros k. destruct (cacheEnabled this) eqn:Hen.
  - destruct (localStorage st !! k) as [[data timestamp|]|] eqn:Hit.
    + rewrite (getFromCache_envelope env this key data timestamp st Hen Hit).
      destruct (_ >? _); [right; right|right; left];
        exists data, timestamp; split; auto.
    + left. unfold getFromCache, getItem. msimpl. rewrite Hen. cbn [negb].
      fold k. rewrite Hit. reflexivity.
    + left. unfold getFromCache, getItem. msimpl. rewrite Hen. cbn [negb].
      fold k. rewrite Hit. reflexivity.
  - left. unfold getFromCache. rewrite Hen. reflexivity.
Qed.

(** A lookup never throws, performs no fetch and no save, and leaves the
    instance config and the page alone. *)
Lemma getFromCache_frame (env : Env) (this : CourseLoader) (key : jsstring)
    (st : State) :
  exists cached st1,
    getFromCache this key env st = (Normal cached, st1)
    /\ config st1 = config st
    /\ container_el st1 = container_el st
    /\ chapter_content st1 = chapter_content st
    /\ filter is_fetch (trace st1) = filter is_fetch (trace st)
    /\ filter is_save (trace st1) = filter is_save (trace st)
    /\ localStorage st1 ⊆ localStorage st
    /\ (cached <> None -> trace st1 = trace st
                          /\ localStorage st1 = localStorage st).
Proof.
  destruct (getFromCache_cases env this key st)
    as [H|[(data & ts & _ & H)|(data & ts & _ & H)]];
    rewrite H; eexists _, _; (split; [reflexivity|]);
    repeat split; try reflexivity; try congruence.
  cbn. apply delete_subseteq.
Qed.

(** A lookup that found nothing usable finds nothing usable later either,
    whatever the clock says, as long as the entry is not rewritten. *)
Lemma getFromCache_miss_stays (env : Env) (this : CourseLoader)
    (key : jsstring) (st : State) (cached : option jsval) (st1 st2 : State) :
  getFromCache this key env st = (Normal cached, st1) ->
  if_truthy cached = None ->
  localStorage st2 !! storage_key this key
    = localStorage st1 !! storage_key this key ->
  served this key env st2 = None.
Proof.
  intros Hrun Hmiss Hsame. unfold served.
  destruct (cacheEnabled this) eqn:Hen;
    [|unfold getFromCache; rewrite Hen; reflexivity].
  assert (Hlater : forall data timestamp,
            localStorage st2 !! storage_key this key
              = Some (Envelope data timestamp) ->
            truthy data = false).
  { intros data ts H2. rewrite Hsame in H2.
    destruct (getFromCache_cases env this key st)
      as [H|[(d & t & Hit & H)|(d & t & Hit & H)]];
      rewrite H in Hrun; injection Hrun as <- <-.
    - rewrite (getFromCache_envelope env this key data ts st Hen H2) in H.
      destruct (_ >? _); [|discriminate].
      injection H as H. apply (f_equal trace) in H. cbn in H.
      apply (f_equal (@length event)) in H. cbn in H. lia.
    - cbn in H2. rewrite Hit in H2. injection H2 as <- <-.
      cbn in Hmiss. destruct (truthy d); [discriminate|reflexivity].
    - cbn in H2. rewrite lookup_delete_eq in H2. discriminate. }
  destruct (getFromCache_cases env this key st2)
    as [H|[(d & t & Hit & H)|(d & t & Hit & H)]]; rewrite H; cbn;
    try reflexivity.
  rewrite (Hlater d t Hit). reflexivity.
Qed.

(** ** Content fetcher *)

(** [fetchChapterContent] behind a lookup that found nothing usable. *)
Lemma fetchChapterContent_miss (env : Env) (this : CourseLoader)
    (chapter : Chapter) (st : State) (cached : option jsval) (st1 : State) :
  getFromCache this (chapter_key this chapter) env st = (Normal cached, st1) ->
  if_truthy cached = None ->
  let url := chapter_url env this chapter (time_at env (ticks st1)) in
  let st2 := requested url st1 in
  fetchChapterContent this chapter env st =
    if negb (property_truthy (get_property fileMapping (ch_id chapter)))
    then (Normal (VString (error_fragment (unmapped_message chapter))), st1)
    else
      match net_fetch env (S (ticks st1)) url with
      | Rejected e => (Normal (VString (error_fragment (message e))), st2)
      | Resolved r =>
          if negb (ok r)
          then (Normal (VString (error_fragment (http_message r))), st2)
          else
            match text r with
            | Rejected e =>
                (Normal (VString (error_fragment (message e))), st2)
            | Resolved html =>
                (Normal (VString (extractContent this html)),
                 snd (saveToCache this (chapter_key this chapter)
                        (VString (extractContent this html)) env st2))
            end
      end.
Proof.
  intros Hrun Hmiss url st2. unfold fetchChapterContent.
  fold (chapter_key this chapter). unfold bind at 1. rewrite Hrun, Hmiss.
  unfold unmapped_message, http_message, ask, Date_now, fetch. msimpl.
  destruct (negb (property_truthy (get_property fileMapping (ch_id chapter))));
    [reflexivity|].
  cbn [ticks tick emit].
  fold (chapter_url env this chapter (time_at env (ticks st1))). fold url.
  fold (requested url st1). fold st2.
  destruct (net_fetch env (S (ticks st1)) url) as [r|e]; [|reflexivity].
  destruct (negb (ok r)); [reflexivity|].
  destruct (text r) as [html|e]; [|reflexivity]. msimpl.
  pose proof (saveToCache_run env this (chapter_key this chapter)
                (VString (extractContent this html)) st2) as Hs.
  destruct (saveToCache _ _ _ env st2) as [c s']. cbn in Hs.
  injection Hs as ->. reflexivity.
Qed.

Lemma fetchChapterContent_hit (env : Env) (this : CourseLoader)
    (chapter : Chapter) (st : State) (v : jsval) (st1 : State) :
  getFromCache this (chapter_key this chapter) env st = (Normal (Some v), st1) ->
  truthy v = true ->
  fetchChapterContent this chapter env st = (Normal v, st1).
Proof.
  intros Hrun Hv. unfold fetchChapterContent.
  fold (chapter_key this chapter). unfold bind at 1. rewrite Hrun.
  cbn [if_truthy]. rewrite Hv. reflexivity.
Qed.

Lemma fetchExerciseContent_hit (env : Env) (this : CourseLoader)
    (chapter : Chapter) (exercise : jsstring) (st : State) (v : jsval)
    (st1 : State) :
  exercise_ref chapter = Some exercise ->
  getFromCache this (exercise_key this chapter) env st
    = (Normal (Some v), st1) ->
  truthy v = true ->
  fetchExerciseContent this chapter env st = (Normal v, st1).
Proof.
  intros Hex Hrun Hv. unfold fetchExerciseContent. rewrite Hex.
  fold (exercise_key this chapter). unfold bind at 1. rewrite Hrun.
  cbn [if_truthy]. rewrite Hv. reflexivity.
Qed.

(** [fetchExerciseContent] behind a lookup that found nothing usable. *)
Lemma fetchExerciseContent_miss (env : Env) (this : CourseLoader)
    (chapter : Chapter) (exercise : jsstring) (st : State)
    (cached : option jsval) (st1 : State) :
  exercise_ref chapter = Some exercise ->
  getFromCache this (exercise_key this chapter) env st = (Normal cached, st1) ->
  if_truthy cached = None ->
  let url := exercise_url this exercise (time_at env (ticks st1)) in
  let st2 := requested url st1 in
  fetchExerciseContent this chapter env st =
    match net_fetch env (S (ticks st1)) url with
    | Rejected e => (Normal (VString []), st2)
    | Resolved r =>
        if ok r
        then
          match text r with
          | Rejected e => (Normal (VString []), st2)
          | Resolved html =>
              (Normal (VString (extractContent this html)),
               snd (saveToCache this (exercise_key this chapter)
                      (VString (extractContent this html)) env st2))
          end
        else (Normal (VString []), st2)
    end.
Proof.
  intros Hex Hrun Hmiss url st2. unfold fetchExerciseContent. rewrite Hex.
  fold (exercise_key this chapter). unfold bind at 1. rewrite Hrun, Hmiss.
  unfold try_catch, Date_now, fetch. msimpl. cbn [ticks tick emit].
  fold (exercise_url this exercise (time_at env (ticks st1))). fold url.
  fold (requested url st1). fold st2.
  destruct (net_fetch env (S (ticks st1)) url) as [r|e]; [|reflexivity].
  destruct (ok r); [|reflexivity].
  destruct (text r) as [html|e]; [|reflexivity]. msimpl.
  pose proof (saveToCache_run env this (exercise_key this chapter)
                (VString (extractContent this html)) st2) as Hs.
  destruct (saveToCache _ _ _ env st2) as [c s']. cbn in Hs.
  injection Hs as ->. reflexivity.
Qed.

(** On every failure path that the code takes, of [fetchChapterContent]
    ([fileMapping[id]] falsy, status not 2xx, network error, unreadable
    body) and of [fetchExerciseContent] (no exercise, status not 2xx,
    network error, unreadable body), the fetcher returns its fallback, the
    inline error fragment or the empty string, and [saveToCache] is not
    called: the trace gains no save, the storage gains no entry, and a
    later call finds nothing to serve under the key, so it asks the
    network again.  The ids that the code takes for unmapped are those
    for which [fileMapping[id]] is [undefined], which leaves out the
    names of inherited properties. *)
Lemma failure_results_never_cached (f : fetcher) (env : Env)
    (this : CourseLoader) (chapter : Chapter) (st : State) :
  takes_failure_path f env this chapter st = true ->
  exists v st',
    run_fetcher f this chapter env st = (Normal v, st')
    /\ is_fallback f v
    /\ filter is_save (trace st') = filter is_save (trace st)
    /\ localStorage st' ⊆ localStorage st
    /\ ((f = ExerciseFetcher /\ exercise_ref chapter = None)
        \/ forall st'',
             localStorage st'' !! storage_key this (fetcher_key f this chapter)
               = localStorage st' !! storage_key this (fetcher_key f this chapter) ->
             served this (fetcher_key f this chapter) env st'' = None).
Proof.
  intros Hfail. destruct f; cbn [run_fetcher fetcher_key is_fallback] in *.
  - destruct (getFromCache_frame env this (chapter_key this chapter) st)
      as (cached & st1 & Hrun & _ & _ & _ & _ & Hsave & Hsub & _).
    unfold takes_failure_path, served, chapter_response in Hfail.
    rewrite Hrun in Hfail. cbn [fst snd completed] in Hfail.
    destruct (if_truthy cached) eqn:Hmiss; [discriminate|].
    rewrite (fetchChapterContent_miss env this chapter st cached st1 Hrun Hmiss).
    pose proof (fun st'' =>
      getFromCache_miss_stays env this (chapter_key this chapter) st cached
        st1 st'' Hrun Hmiss) as Hretry.
    destruct (negb (property_truthy _)); [fallback Hsave Hsub Hretry|].
    cbn [orb] in Hfail. unfold request_fails in Hfail.
    destruct (net_fetch env _ _) as [r|e]; [|fallback Hsave Hsub Hretry].
    destruct (negb (ok r)); [fallback Hsave Hsub Hretry|].
    destruct (text r) as [html|e]; [discriminate|fallback Hsave Hsub Hretry].
  - unfold takes_failure_path in Hfail.
    destruct (exercise_ref chapter) as [exercise|] eqn:Hex.
    + destruct (getFromCache_frame env this (exercise_key this chapter) st)
        as (cached & st1 & Hrun & _ & _ & _ & _ & Hsave & Hsub & _).
      unfold served, exercise_response in Hfail.
      rewrite Hrun in Hfail. cbn [fst snd completed] in Hfail.
      destruct (if_truthy cached) eqn:Hmiss; [discriminate|].
      rewrite (fetchExerciseContent_miss env this chapter exercise st cached
                 st1 Hex Hrun Hmiss).
      pose proof (fun st'' =>
        getFromCache_miss_stays env this (exercise_key this chapter) st cached
          st1 st'' Hrun Hmiss) as Hretry.
      unfold request_fails in Hfail.
      destruct (net_fetch env _ _) as [r|e]; [|fallback Hsave Hsub Hretry].
      destruct (ok r); cbn [negb orb] in Hfail;
        [|fallback Hsave Hsub Hretry].
      destruct (text r) as [html|e]; [discriminate|fallback Hsave Hsub Hretry].
    + exists (VString []), st. unfold fetchExerciseContent. rewrite Hex.
      repeat split; try reflexivity. left. split; reflexivity.
Qed.

(** After a successful request the fetcher hands the extracted fragment to
    [saveToCache] and returns it. *)
Lemma saveToCache_trace (env : Env) (this : CourseLoader) (key : jsstring)
    (data : jsval) (st : State) :
  exists written,
    trace (snd (saveToCache this key data env st))
    = written ++ ESaveToCache key data :: trace st
    /\ (written = []
        \/ exists t, written = [ESetItem (storage_key this key) (Envelope data t)]).
Proof.
  unfold saveToCache, Date_now, setItem. msimpl.
  destruct (cacheEnabled this); cbn [negb].
  - destruct (quota_exceeded env _ _ _); cbn.
    + exists []. split; [reflexivity|left; reflexivity].
    + eexists [_]. split; [reflexivity|right; eexists; reflexivity].
  - exists []. split; [reflexivity|left; reflexivity].
Qed.

(** The other paths behind a lookup that serves nothing: the fetcher
    returns the extracted fragment of a 2xx response and has handed just
    that to [saveToCache]. *)
Lemma success_results_are_cached (f : fetcher) (env : Env)
    (this : CourseLoader) (chapter : Chapter) (st : State) :
  served this (fetcher_key f this chapter) env st = None ->
  takes_failure_path f env this chapter st = false ->
  exists html st' written,
    run_fetcher f this chapter env st
      = (Normal (VString (extractContent this html)), st')
    /\ filter is_save (trace st')
       = written
         ++ ESaveToCache (fetcher_key f this chapter)
              (VString (extractContent this html))
         :: filter is_save (trace st).
Proof.
  intros Hserved Hpath.
  assert (Hsaved : forall key data url st1,
            filter is_save (trace st1) = filter is_save (trace st) ->
            exists written,
              filter is_save
                (trace (snd (saveToCache this key data env (requested url st1))))
              = written ++ ESaveToCache key data :: filter is_save (trace st)).
  { intros key data url st1 Hsave.
    destruct (saveToCache_trace env this key data (requested url st1))
      as (written & -> & [->|[t ->]]).
    - exists []. exact (f_equal (cons (ESaveToCache key data)) Hsave).
    - eexists [_].
      exact (f_equal (fun l => _ :: ESaveToCache key data :: l) Hsave). }
  destruct f; cbn [run_fetcher fetcher_key] in *;
    unfold takes_failure_path in Hpath.
  - rewrite Hserved in Hpath.
    destruct (getFromCache_frame env this (chapter_key this chapter) st)
      as (cached & st1 & Hrun & _ & _ & _ & _ & Hsave & _).
    unfold served, chapter_response in *. rewrite Hrun in *.
    cbn [fst snd completed] in *.
    rewrite (fetchChapterContent_miss env this chapter st cached st1 Hrun
               Hserved).
    destruct (negb (property_truthy _)); [discriminate|].
    cbn [orb] in Hpath. unfold request_fails in Hpath.
    destruct (net_fetch env _ _) as [r|e]; [|discriminate].
    destruct (negb (ok r)); [discriminate|].
    destruct (text r) as [html|e]; [|discriminate].
    destruct (Hsaved (chapter_key this chapter)
                (VString (extractContent this html))
                (chapter_url env this chapter (time_at env (ticks st1))) st1
                Hsave) as (written & Hw).
    exists html. eexists. exists written. split; [reflexivity|exact Hw].
  - destruct (exercise_ref chapter) as [exercise|] eqn:Hex; [|discriminate].
    rewrite Hserved in Hpath.
    destruct (getFromCache_frame env this (exercise_key this chapter) st)
      as (cached & st1 & Hrun & _ & _ & _ & _ & Hsave & _).
    unfold served, exercise_response in *. rewrite Hrun in *.
    cbn [fst snd completed] in *.
    rewrite (fetchExerciseContent_miss env this chapter exercise st cached st1
               Hex Hrun Hserved).
    unfold request_fails in Hpath.
    destruct (net_fetch env _ _) as [r|e]; [|discriminate].
    destruct (ok r); [|discriminate].
    destruct (text r) as [html|e]; [|discriminate].
    destruct (Hsaved (exercise_key this chapter)
                (VString (extractContent this html))
                (exercise_url this exercise (time_at env (ticks st1))) st1
                Hsave) as (written & Hw).
    exists html. eexists. exists written. split; [reflexivity|exact Hw].
Qed.

(** C8: [fetchExerciseContent] never throws.  For a chapter without an
    exercise reference it returns the empty string and does nothing at all,
    so a request is sent only for a chapter that declares one.  Behind a
    lookup that serves nothing, it returns the empty string when the
    request is rejected, when the status is not 2xx and when the body
    cannot be read, and the extracted fragment of the body otherwise. *)
Theorem fetchExerciseContent_soft_failure (env : Env) (this : CourseLoader)
    (chapter : Chapter) (st : State) :
  exists v st',
    fetchExerciseContent this chapter env st = (Normal v, st')
    /\ match exercise_ref chapter with
       | None => v = VString [] /\ st' = st
       | Some exercise =>
           match served this (exercise_key this chapter) env st with
           | Some c => v = c
           | None =>
               match exercise_response env this chapter exercise st with
               | Rejected _ => v = VString []
               | Resolved r =>
                   if ok r
                   then match text r with
                        | Resolved html => v = VString (extractContent this html)
                        | Rejected _ => v = VString []
                        end
                   else v = VString []
               end
           end
       end
    /\ (filter is_fetch (trace st') <> filter is_fetch (trace st) ->
        exists exercise, exercise_ref chapter = Some exercise).
Proof.
  destruct (exercise_ref chapter) as [exercise|] eqn:Hex.
  - destruct (getFromCache_frame env this (exercise_key this chapter) st)
      as (cached & st1 & Hrun & _ & _ & _ & _ & _ & _ & _).
    unfold served, exercise_response. rewrite Hrun. cbn [fst snd completed].
    destruct (if_truthy cached) as [c|] eqn:Hserved.
    + assert (Hc : cached = Some c /\ truthy c = true).
      { destruct cached as [v|]; [|discriminate]. cbn in Hserved.
        destruct (truthy v) eqn:Hv; [|discriminate].
        injection Hserved as <-. split; [reflexivity|exact Hv]. }
      destruct Hc as [-> Hc].
      rewrite (fetchExerciseContent_hit env this chapter exercise st c st1
                 Hex Hrun Hc).
      eexists _, _. split; [reflexivity|]. split; [reflexivity|]. eauto.
    + rewrite (fetchExerciseContent_miss env this chapter exercise st cached
                 st1 Hex Hrun Hserved).
      destruct (net_fetch env _ _) as [r|e].
      * destruct (ok r).
        -- destruct (text r) as [html|e];
             eexists _, _; (split; [reflexivity|]); split; eauto.
        -- eexists _, _. split; [reflexivity|]. split; eauto.
      * eexists _, _. split; [reflexivity|]. split; eauto.
  - exists (VString []), st. unfold fetchExerciseContent. rewrite Hex.
    split; [reflexivity|]. split; [split; reflexivity|].
    intros H. congruence.
Qed.

(** ** Config fetcher and initialisation *)

Lemma if_truthy_some (cached : option jsval) (v : jsval) :
  if_truthy cached = Some v -> cached = Some v /\ truthy v = true.
Proof.
  destruct cached as [w|]; [|discriminate]. cbn.
  destruct (truthy w) eqn:Hw; [|discriminate].
  intros [= <-]. split; [reflexivity|exact Hw].
Qed.

(** C5: when the lookup of [course_config_{courseId}] hits, that is, it
    returns a value the test [if (cached)] accepts, as it accepts every
    manifest, [loadConfig] makes that value the instance config and
    returns: no request is sent, and nothing else happens either, the
    trace and the storage are as before. *)
Theorem loadConfig_cache_hit (env : Env) (this : CourseLoader) (st : State)
    (v : jsval) :
  served this (config_key this) env st = Some v ->
  exists st',
    loadConfig this env st = (Normal tt, st')
    /\ config st' = Some v
    /\ filter is_fetch (trace st') = filter is_fetch (trace st)
    /\ trace st' = trace st
    /\ localStorage st' = localStorage st
    /\ (forall c, truthy (VConfig c) = true).
Proof.
  intros Hserved.
  destruct (getFromCache_frame env this (config_key this) st)
    as (cached & st1 & Hrun & _ & _ & _ & _ & _ & _ & Hsame).
  unfold served in Hserved. rewrite Hrun in Hserved.
  cbn [fst completed] in Hserved.
  destruct (if_truthy_some _ _ Hserved) as [-> Hv].
  destruct (Hsame ltac:(discriminate)) as [Htrace Hstore].
  exists (set_config (Some v) st1).
  unfold loadConfig. fold (config_key this). unfold bind at 1.
  rewrite Hrun, Hserved. cbn [set_config config trace localStorage].
  repeat split; try assumption. rewrite Htrace. reflexivity.
Qed.

(** [loadConfig] behind a lookup that serves nothing, when the response
    has a status outside 2xx. *)
Lemma loadConfig_not_ok (env : Env) (this : CourseLoader) (st : State)
    (r : Response) :
  served this (config_key this) env st = None ->
  config_response env this st = Resolved r ->
  ok r = false ->
  let st1 := snd (getFromCache this (config_key this) env st) in
  loadConfig this env st =
    (Throw {| message := http_message r |},
     requested (config_url this (time_at env (ticks st1))) st1).
Proof.
  intros Hserved Hresp Hok st1.
  destruct (getFromCache_frame env this (config_key this) st)
    as (cached & st1' & Hrun & _).
  unfold served in Hserved. unfold config_response in Hresp.
  subst st1. rewrite Hrun in *. cbn [fst snd completed] in *.
  unfold loadConfig. fold (config_key this). unfold bind at 1.
  rewrite Hrun, Hserved.
  unfold try_catch, Date_now, fetch. msimpl. cbn [ticks tick emit].
  fold (config_url this (time_at env (ticks st1'))).
  rewrite Hresp, Hok. reflexivity.
Qed.

(** C7: when the lookup serves nothing and the response to the request for
    [config.json] has a status outside 2xx, [loadConfig] throws an error
    whose message is [HTTP] followed by the status, the instance config is
    what it was, and nothing is saved; [init] catches the error, does not
    render the page and calls [showError] with the message of a failed
    initialisation. *)
Theorem loadConfig_http_error_is_fatal (env : Env) (this : CourseLoader)
    (st : State) (r : Response) :
  served this (config_key this) env st = None ->
  config_response env this st = Resolved r ->
  ok r = false ->
  exists st',
    loadConfig this env st
      = (Throw {| message := js "HTTP " ++ Number_toString (Num (status r)) |},
         st')
    /\ config st' = config st
    /\ filter is_save (trace st') = filter is_save (trace st)
    /\ init this env st = showError init_error_message env st'
    /\ fst (init this env st) = Normal tt
    /\ config (snd (init this env st)) = config st
    /\ container_el (snd (init this env st)) = container_el st
    /\ chapter_content (snd (init this env st))
       = match chapter_content st with
         | Some _ => Some (error_panel init_error_message)
         | None => None
         end.
Proof.
  intros Hserved Hresp Hok.
  pose proof (loadConfig_not_ok env this st r Hserved Hresp Hok) as Hload.
  cbv zeta in Hload.
  destruct (getFromCache_frame env this (config_key this) st)
    as (cached & st1 & Hrun & Hcfg & Hel & Hcc & _ & Hsave & _).
  rewrite Hrun in Hload. cbn [snd] in Hload.
  eexists. split; [exact Hload|]. split; [exact Hcfg|]. split; [exact Hsave|].
  assert (Hinit : init this env st
                  = showError init_error_message env
                      (requested (config_url this (time_at env (ticks st1))) st1)).
  { unfold init, try_catch, bind, init_error_message. rewrite Hload.
    reflexivity. }
  rewrite Hinit. split; [reflexivity|].
  unfold showError. msimpl. cbn [chapter_content requested tick emit].
  rewrite Hcc.
  destruct (chapter_content st); cbn; repeat split; assumption.
Qed.

(** ** Chapters that are not in the mapping table *)

Lemma fetchChapterContent_never_throws (env : Env) (this : CourseLoader)
    (chapter : Chapter) (st : State) :
  exists v st', fetchChapterContent this chapter env st = (Normal v, st').
Proof.
  destruct (getFromCache_frame env this (chapter_key this chapter) st)
    as (cached & st1 & Hrun & _).
  destruct (if_truthy cached) as [c|] eqn:Hserved.
  - destruct (if_truthy_some _ _ Hserved) as [-> Hc].
    rewrite (fetchChapterContent_hit env this chapter st c st1 Hrun Hc). eauto.
  - rewrite (fetchChapterContent_miss env this chapter st cached st1 Hrun
               Hserved).
    destruct (negb _); [eauto|].
    destruct (net_fetch env _ _) as [r|e]; [|eauto].
    destruct (negb (ok r)); [eauto|].
    destruct (text r); eauto.
Qed.

(** An id for which [fileMapping[id]] is [undefined] gets the error
    fragment that names it, and no request is sent. *)
Lemma fetchChapterContent_undefined_file (env : Env) (this : CourseLoader)
    (chapter : Chapter) (st : State) :
  served this (chapter_key this chapter) env st = None ->
  fileMapping !! ch_id chapter = None ->
  ch_id chapter ∉ Object_prototype ->
  fst (fetchChapterContent this chapter env st)
    = Normal (VString (error_fragment (unmapped_message chapter)))
  /\ filter is_fetch (trace (snd (fetchChapterContent this chapter env st)))
     = filter is_fetch (trace st).
Proof.
  intros Hserved Hown Hproto.
  destruct (getFromCache_frame env this (chapter_key this chapter) st)
    as (cached & st1 & Hrun & _ & _ & _ & Hfetch & _).
  unfold served in Hserved. rewrite Hrun in Hserved.
  cbn [fst completed] in Hserved.
  rewrite (fetchChapterContent_miss env this chapter st cached st1 Hrun
             Hserved).
  unfold get_property. rewrite Hown.
  rewrite bool_decide_eq_false_2 by exact Hproto.
  cbn [property_truthy negb fst snd]. split; [reflexivity|exact Hfetch].
Qed.

(** C4: the id [constructor] is not in the mapping table, yet
    [fileMapping[chapter.id]] is then the function every object inherits
    from [Object.prototype], which [!fileName] does not reject.  The fetch
    goes on with the text of that function in the URL, and when the server
    answers 200 the body is returned as the content of the chapter and
    cached: no error fragment is produced for this unmapped id. *)
Theorem fetchChapterContent_inherited_property_id :
  let env := sample_env steady_clock (page_reply 200 (js "<p>x</p>")) in
  let this := constructor env no_options in
  let chapter := sample_chapter (js "constructor") (js "5 min") in
  let result := fetchChapterContent this chapter env fresh_page in
  fileMapping !! ch_id chapter = None
  /\ get_property fileMapping (ch_id chapter)
     = Some (Inherited (js "constructor"))
  /\ fst result = Normal (VString (js "<p>x</p>"))
  /\ (forall msg, VString (js "<p>x</p>") <> VString (error_fragment msg))
  /\ trace (snd result)
     = [ ESetItem (js "v1.0.0_chapter_situation_1_constructor")
           (Envelope (VString (js "<p>x</p>")) 1002);
         ESaveToCache (js "chapter_situation_1_constructor")
           (VString (js "<p>x</p>"));
         EFetch (js "https://purge.jsdelivr.net/gh/andrkelb-school/SW_Situation_1_BauMax@latest/github_content/function Object() { [native code] }?t=1000") ].
Proof.
  cbv zeta. split; [vm_compute; reflexivity|].
  split; [vm_compute; reflexivity|].
  split; [vm_compute; reflexivity|]. split.
  - intros msg H. injection H as H. unfold error_fragment in H.
    vm_compute in H. discriminate H.
  - vm_compute. reflexivity.
Qed.

(** An id that the table does not have and that no object inherits is on
    a failure path. *)
Lemma undefined_file_takes_failure_path (env : Env) (this : CourseLoader)
    (chapter : Chapter) (st : State) :
  served this (chapter_key this chapter) env st = None ->
  fileMapping !! ch_id chapter = None ->
  ch_id chapter ∉ Object_prototype ->
  takes_failure_path ChapterFetcher env this chapter st = true.
Proof.
  intros Hserved Hown Hproto. unfold takes_failure_path. rewrite Hserved.
  unfold get_property. rewrite Hown.
  rewrite bool_decide_eq_false_2 by exact Hproto. reflexivity.
Qed.

(** C10: the id [constructor] is not in the mapping table, yet the code
    does not take the path of an unmapped id for it, and when the server
    answers 200 [saveToCache] is called: the body is written to the
    storage under the key of the chapter, and the next call returns it
    from there without a request.  What was fetched for an unmapped id is
    persisted. *)
Theorem inherited_property_id_is_cached :
  let chapter := sample_chapter (js "constructor") (js "5 min") in
  let first := fetchChapterContent loader chapter online fresh_page in
  let second := fetchChapterContent loader chapter online (snd first) in
  fileMapping !! ch_id chapter = None
  /\ takes_failure_path ChapterFetcher online loader chapter fresh_page = false
  /\ filter is_save (trace (snd first))
     = [ ESetItem (js "v1.0.0_chapter_situation_1_constructor")
           (Envelope (VString (js "<p>x</p>")) 1002);
         ESaveToCache (js "chapter_situation_1_constructor")
           (VString (js "<p>x</p>")) ]
  /\ localStorage (snd first) !! js "v1.0.0_chapter_situation_1_constructor"
     = Some (Envelope (VString (js "<p>x</p>")) 1002)
  /\ fst second = Normal (VString (js "<p>x</p>"))
  /\ filter is_fetch (trace (snd second)) = filter is_fetch (trace (snd first)).
Proof.
  cbv zeta. split; [vm_compute; reflexivity|].
  split; [vm_compute; reflexivity|]. split; [vm_compute; reflexivity|].
  split; [vm_compute; reflexivity|]. split; vm_compute; reflexivity.
Qed.

(** ** The statements at concrete inputs *)

Lemma cache_entry_expires_after_ttl_witness :
  let st1 := snd (saveToCache loader (js "k") (VString (js "x")) online fresh_page) in
  cacheEnabled loader = true
  /\ time_at online (ticks st1)
     < time_at online (ticks fresh_page) + cacheDuration loader
  /\ fst (getFromCache loader (js "k") online st1)
     = Normal (Some (VString (js "x"))).
Proof.
  cbv zeta. split; [reflexivity|]. split; [vm_compute; reflexivity|].
  refine (proj1 (proj1 (cache_entry_expires_after_ttl online loader (js "k")
                          (VString (js "x")) fresh_page _ eq_refl eq_refl
                          eq_refl) _)).
  vm_compute. reflexivity.
Defined.

(** Read after the TTL has passed, the entry is gone. *)
Example cache_entry_expired :
  let late := sample_env (fun n => 1000 + 3600001 * Z.of_nat n) (page_reply 200 []) in
  let st1 := snd (saveToCache loader (js "k") (VString (js "x")) late fresh_page) in
  fst (getFromCache loader (js "k") late st1) = Normal None
  /\ localStorage (snd (getFromCache loader (js "k") late st1)) = ∅.
Proof. cbv zeta. split; vm_compute; reflexivity. Qed.

Lemma extractContent_two_markers_witness :
  occurrences (marker loader) sample_html = [5; 53]%nat
  /\ extractContent loader sample_html = js "<p>Hallo</p>".
Proof.
  assert (H : occurrences (marker loader) sample_html = [5; 53]%nat)
    by (vm_compute; reflexivity).
  split; [exact H|].
  refine (eq_trans
            (proj1 (extractContent_two_markers online no_options sample_html
                      5 53 H)) _).
  vm_compute. reflexivity.
Defined.

Lemma extractContent_fewer_markers_witness :
  (length (occurrences (marker loader) single_marker_html) <= 1)%nat
  /\ extractContent loader single_marker_html = single_marker_html.
Proof.
  assert (H : (length (occurrences (marker loader) single_marker_html) <= 1)%nat)
    by (vm_compute; apply le_n).
  split; [exact H|].
  exact (extractContent_fewer_markers online no_options single_marker_html H).
Defined.

Lemma loadConfig_cache_hit_witness :
  served loader (config_key loader) online cached_page
    = Some (VConfig sample_config)
  /\ exists st',
       loadConfig loader online cached_page = (Normal tt, st')
       /\ config st' = Some (VConfig sample_config)
       /\ trace st' = trace cached_page.
Proof.
  assert (H : served loader (config_key loader) online cached_page
              = Some (VConfig sample_config)) by (vm_compute; reflexivity).
  split; [exact H|].
  destruct (loadConfig_cache_hit online loader cached_page _ H)
    as (st' & Hrun & Hcfg & _ & Htrace & _).
  exists st'. split; [exact Hrun|]. split; [exact Hcfg|exact Htrace].
Defined.

Lemma getTotalDuration_sum_witness :
  config loaded_page = Some (VConfig sample_config)
  /\ Zsum (map (fun ch => leading_integer (ch_duration ch))
            (chapters sample_config)) = 15
  /\ getTotalDuration online loaded_page = (Normal (js "15 min"), loaded_page).
Proof.
  split; [reflexivity|]. split; [vm_compute; reflexivity|].
  refine (eq_trans
            (proj2 (proj1 (proj2 (getTotalDuration_sum online loaded_page
                                    sample_config eq_refl)) _)) _).
  - vm_compute. reflexivity.
  - vm_compute. reflexivity.
Defined.

(** The first integer of a duration is its first run of digits, wherever
    it starts, and nothing after that run counts. *)
Example getTotalDuration_first_integer :
  let c :=
    {| courseName := js "BauMax"; description := js "Situation 1";
       version := js "1.0"; institution := js "Schule";
       chapters := [ sample_chapter (js "1.0") (js "abc 7");
                     sample_chapter (js "1.1") (js "ca. 20-30 min");
                     sample_chapter (js "1.2") (js "1.5 h") ] |} in
  fst (getTotalDuration online (set_config (Some (VConfig c)) fresh_page))
  = Normal (js "28 min").
Proof. vm_compute. reflexivity. Qed.

(** Beyond 2^53 the text is not the sum: a single duration of 2^53 + 1
    minutes is read as 2^53. *)
Lemma getTotalDuration_sum_rounded :
  let st := set_config (Some (VConfig long_course)) fresh_page in
  let N := Zsum (map (fun ch => leading_integer (ch_duration ch))
                   (chapters long_course)) in
  N = 9007199254740993
  /\ decimal (Z.to_N N) ++ js " min" = js "9007199254740993 min"
  /\ fst (getTotalDuration online st) = Normal (js "9007199254740992 min")
  /\ fst (getTotalDuration online st)
     <> Normal (decimal (Z.to_N N) ++ js " min").
Proof.
  cbv zeta. split; [vm_compute; reflexivity|].
  split; [vm_compute; reflexivity|]. split; [vm_compute; reflexivity|].
  vm_compute. discriminate.
Qed.

Lemma loadConfig_http_error_is_fatal_witness :
  served loader (config_key loader) not_found fresh_page = None
  /\ (exists r, config_response not_found loader fresh_page = Resolved r
                /\ ok r = false)
  /\ fst (loadConfig loader not_found fresh_page)
     = Throw {| message := js "HTTP 404" |}
  /\ fst (init loader not_found fresh_page) = Normal tt
  /\ config (snd (init loader not_found fresh_page)) = None.
Proof.
  assert (H : served loader (config_key loader) not_found fresh_page = None)
    by (vm_compute; reflexivity).
  split; [exact H|]. split; [eexists; split; vm_compute; reflexivity|].
  destruct (loadConfig_http_error_is_fatal not_found loader fresh_page
              _ H eq_refl eq_refl)
    as (st' & Hload & _ & _ & _ & Hinit & Hcfg & _).
  split; [rewrite Hload; vm_compute; reflexivity|].
  split; [exact Hinit|exact Hcfg].
Defined.

Lemma renderTableOfContents_manifest_order_witness :
  config loaded_page = Some (VConfig sample_config)
  /\ exists html,
       renderTableOfContents online loaded_page = (Normal html, loaded_page)
       /\ match indexOf (chapter_attr (js "1.0")) html,
                indexOf (chapter_attr (js "1.1")) html with
          | Some p, Some q => (p <? q)%nat
          | _, _ => false
          end = true.
Proof.
  split; [reflexivity|].
  destruct (renderTableOfContents_manifest_order online loaded_page
              sample_config eq_refl) as (html & Hrun & Hhtml & _).
  exists html. split; [exact Hrun|]. rewrite Hhtml. vm_compute. reflexivity.
Defined.

Lemma failure_results_never_cached_witness :
  let chapter := sample_chapter (js "9.9") (js "5 min") in
  takes_failure_path ChapterFetcher online loader chapter fresh_page = true
  /\ exists v st',
       fetchChapterContent loader chapter online fresh_page = (Normal v, st')
       /\ (exists msg, v = VString (error_fragment msg))
       /\ filter is_save (trace st') = []
       /\ localStorage st' ⊆ ∅.
Proof.
  cbv zeta.
  assert (H : takes_failure_path ChapterFetcher online loader
                (sample_chapter (js "9.9") (js "5 min")) fresh_page = true)
    by (vm_compute; reflexivity).
  split; [exact H|].
  destruct (failure_results_never_cached ChapterFetcher online loader _
              fresh_page H) as (v & st' & Hrun & Hv & Hsave & Hsub & _).
  exists v, st'. split; [exact Hrun|]. split; [exact Hv|].
  split; [exact Hsave|exact Hsub].
Defined.

(** A chapter of the table, fetched and cached, then served from the
    cache without a second request. *)
Example fetchChapterContent_then_cached :
  let chapter := sample_chapter (js "1.1") (js "5 min") in
  let first := fetchChapterContent loader chapter online fresh_page in
  let second := fetchChapterContent loader chapter online (snd first) in
  fst first = Normal (VString (js "<p>x</p>"))
  /\ fst second = Normal (VString (js "<p>x</p>"))
  /\ filter is_fetch (trace (snd second))
     = [EFetch (js "https://purge.jsdelivr.net/gh/andrkelb-school/SW_Situation_1_BauMax@latest/github_content/seite1.1_fliesenrechner.html?t=1000")].
Proof. cbv zeta. repeat split; vm_compute; reflexivity. Qed.

(** An exercise that the server does not have, and one that it has. *)
Example fetchExerciseContent_examples :
  let chapter :=
    {| ch_id := js "1.1"; ch_title := js "Titel"; ch_type := js "lesson";
       ch_duration := js "5 min"; ch_exercise := Some (js "uebung1.1.html") |} in
  fetchExerciseContent loader chapter not_found fresh_page
    = (Normal (VString []),
       requested (js "https://purge.jsdelivr.net/gh/andrkelb-school/SW_Situation_1_BauMax@latest/github_content/uebung1.1.html?t=1000")
         fresh_page)
  /\ fst (fetchExerciseContent loader chapter online fresh_page)
     = Normal (VString (js "<p>x</p>"))
  /\ fetchExerciseContent loader (sample_chapter (js "1.1") (js "5 min"))
       online fresh_page
     = (Normal (VString []), fresh_page).
Proof. cbv zeta. repeat split; vm_compute; reflexivity. Qed.

(** * Further properties *)

(** ** Fragments without the marker *)

Lemma startsWith_take (p s : jsstring) (n : nat) :
  startsWith p (take n s) = true -> startsWith p s = true.
Proof.
  revert s n. induction p as [|a p IH]; intros s n H; [reflexivity|].
  destruct s as [|b s]; [destruct n; discriminate|].
  destruct n as [|n]; [discriminate|]. cbn in *.
  apply andb_prop in H as [Hab Hp]. rewrite Hab. exact (IH _ _ Hp).
Qed.

Lemma startsWith_prefix (p s r : jsstring) :
  startsWith p s = true -> startsWith p (s ++ r) = true.
Proof.
  revert s. induction p as [|a p IH]; intros s H; [reflexivity|].
  destruct s as [|b s]; [discriminate|]. cbn in *.
  apply andb_prop in H as [Hab Hp]. rewrite Hab. exact (IH _ Hp).
Qed.

Lemma occurrences_nil_cons (sep : jsstring) (c : N) (s : jsstring) :
  occurrences sep (c :: s) = [] ->
  startsWith sep (c :: s) = false /\ occurrences sep s = [].
Proof.
  intros H. destruct (startsWith sep (c :: s)) eqn:Hp.
  - unfold occurrences in H. cbn [occurrences_from] in H. rewrite Hp in H.
    discriminate.
  - rewrite (occurrences_cons_false _ _ _ Hp) in H.
    split; [reflexivity|]. destruct (occurrences sep s); [reflexivity|].
    discriminate.
Qed.

Lemma occurrences_nil_suffix (sep l s : jsstring) :
  occurrences sep (l ++ s) = [] -> occurrences sep s = [].
Proof.
  induction l as [|c l IH]; intros H; [exact H|].
  apply IH. exact (proj2 (occurrences_nil_cons _ _ _ H)).
Qed.

Lemma occurrences_nil_prefix (sep s r : jsstring) :
  occurrences sep (s ++ r) = [] -> occurrences sep s = [].
Proof.
  induction s as [|c s IH]; intros H; [reflexivity|].
  cbn [app] in H. destruct (occurrences_nil_cons _ _ _ H) as [Hp Hs].
  assert (Hp' : startsWith sep (c :: s) = false).
  { destruct (startsWith sep (c :: s)) eqn:E; [|reflexivity].
    pose proof (startsWith_prefix sep (c :: s) r E) as E'.
    cbn [app] in E'. congruence. }
  rewrite (occurrences_cons_false _ _ _ Hp'), (IH Hs). reflexivity.
Qed.

(** What stands before the first occurrence holds no occurrence. *)
Lemma occurrences_before_first (sep s : jsstring) (q : nat) (qs : list nat) :
  occurrences sep s = q :: qs -> occurrences sep (take q s) = [].
Proof.
  revert q qs. induction s as [|c s IH]; intros q qs H; [discriminate|].
  destruct (startsWith sep (c :: s)) eqn:Hp.
  - unfold occurrences in H. cbn [occurrences_from] in H. rewrite Hp in H.
    injection H as <- _. reflexivity.
  - rewrite (occurrences_cons_false _ _ _ Hp) in H.
    destruct (occurrences sep s) as [|q' qs'] eqn:Ho; [discriminate|].
    cbn [map] in H. injection H as <- _. cbn [take].
    assert (Hp' : startsWith sep (c :: take q' s) = false).
    { destruct (startsWith sep (c :: take q' s)) eqn:E; [|reflexivity].
      rewrite (startsWith_take sep (c :: s) (S q') E) in Hp. discriminate. }
    rewrite (occurrences_cons_false _ _ _ Hp'), (IH q' qs' eq_refl).
    reflexivity.
Qed.

Section NoSelfOverlapWrap.

Variables (h : N) (t : jsstring).
Hypothesis head_fresh : h ∉ t.

Local Abbreviation sep := (h :: t).

(** A text that starts with the tail of the separator up to a fresh head
    starts with that tail before the head as well. *)
Lemma startsWith_before_head (p u r : jsstring) :
  h ∉ p -> startsWith p (u ++ h :: r) = true -> startsWith p u = true.
Proof.
  revert u. induction p as [|a p IH]; intros u Hp H; [reflexivity|].
  apply not_elem_of_cons in Hp as [Ha Hp].
  destruct u as [|b u]; cbn in H.
  - destruct (N.eqb_spec a h); [congruence|discriminate].
  - apply andb_prop in H as [Hab H]. cbn. rewrite Hab. exact (IH u Hp H).
Qed.

(** Behind a text without occurrence, the first occurrence is the
    separator that follows it. *)
Lemma occurrences_wrap (a rest : jsstring) :
  occurrences sep a = [] ->
  occurrences sep (a ++ sep ++ rest)
  = length a :: map (Nat.add (length a + length sep)) (occurrences sep rest).
Proof.
  induction a as [|c a IH]; intros Ha.
  - change (occurrences sep (sep ++ rest)
            = 0%nat :: map (Nat.add (length sep)) (occurrences sep rest)).
    rewrite (occurrences_at_head h t head_fresh (sep ++ rest))
      by apply startsWith_app.
    rewrite drop_app_length. reflexivity.
  - destruct (occurrences_nil_cons _ _ _ Ha) as [Hp Ho].
    assert (Hp' : startsWith sep (c :: a ++ sep ++ rest) = false).
    { destruct (startsWith sep (c :: a ++ sep ++ rest)) eqn:E; [|reflexivity].
      cbn in E. apply andb_prop in E as [Ehc E].
      apply (startsWith_before_head t a (t ++ rest) head_fresh) in E.
      cbn in Hp. rewrite Ehc, E in Hp. discriminate. }
    change ((c :: a) ++ sep ++ rest) with (c :: (a ++ sep ++ rest)).
    rewrite (occurrences_cons_false _ _ _ Hp'), (IH Ho).
    cbn [map length]. f_equal. rewrite map_map. apply map_ext. intros x. lia.
Qed.

End NoSelfOverlapWrap.

Lemma marker_free_infix (sep l m r : jsstring) :
  occurrences sep (l ++ m ++ r) = [] -> occurrences sep m = [].
Proof.
  intros H. apply occurrences_nil_suffix in H.
  exact (occurrences_nil_prefix _ _ _ H).
Qed.

Lemma extractContent_marker_free (this : CourseLoader) (html : jsstring) :
  marker this = 60%N :: marker_tail ->
  occurrences (marker this) html = [] -> extractContent this html = html.
Proof.
  intros Hm Ho. rewrite (extractContent_parts this html Hm), Ho. reflexivity.
Qed.

(** What [extractContent] returns for a text with two or more markers
    holds no marker. *)
Lemma extractContent_result_marker_free (env : Env) (options : Options)
    (html : jsstring) (i j : nat) (rest : list nat) :
  let this := constructor env options in
  occurrences (marker this) html = i :: j :: rest ->
  occurrences (marker this) (extractContent this html) = [].
Proof.
  intros this Ho.
  pose proof (marker_constructor env options) as Hm. fold this in Hm.
  rewrite (extractContent_parts this html Hm), Ho. rewrite Hm in *.
  pose proof (occurrences_after_first 60%N marker_tail marker_head_fresh
                html i (j :: rest) Ho) as Hafter.
  destruct (occurrences (60%N :: marker_tail)
              (drop (i + length (60%N :: marker_tail)) html))
    as [|q qs] eqn:Hq; [discriminate|].
  cbn [map] in Hafter. injection Hafter as Hj _.
  pose proof (occurrences_before_first _ _ _ _ Hq) as Hfree.
  unfold substring. change (length (60%N :: marker_tail)) with 32%nat in *.
  replace (j - (i + 32))%nat with q by lia.
  destruct (trim_spec (take q (drop (i + 32) html)))
    as (l & r & Hsplit & _).
  rewrite Hsplit in Hfree at 1. exact (marker_free_infix _ _ _ _ Hfree).
Qed.

(** X1: extracting twice is extracting once: a fragment that was extracted,
    for instance one that comes back from the cache, passes through
    [extractContent] unchanged. *)
Theorem extractContent_idempotent (env : Env) (options : Options)
    (html : jsstring) :
  let this := constructor env options in
  extractContent this (extractContent this html) = extractContent this html.
Proof.
  intros this.
  pose proof (marker_constructor env options) as Hm. fold this in Hm.
  destruct (occurrences (marker this) html) as [|i [|j rest]] eqn:Ho.
  - rewrite (extractContent_marker_free this html Hm Ho).
    exact (extractContent_marker_free this html Hm Ho).
  - assert (Hid : extractContent this html = html).
    { rewrite (extractContent_parts this html Hm), Ho. reflexivity. }
    rewrite Hid. exact Hid.
  - apply (extractContent_marker_free this _ Hm).
    exact (extractContent_result_marker_free env options html i j rest Ho).
Qed.

(** X2: a fragment [b] put between two markers is what [extractContent] gives
    back, trimmed, whatever stands before the first marker and behind the
    second one, as long as the text before and the fragment hold no marker
    themselves; the text behind may hold further markers. *)
Theorem extractContent_wrapped_fragment (env : Env) (options : Options)
    (a b c : jsstring) :
  let this := constructor env options in
  occurrences (marker this) a = [] ->
  occurrences (marker this) b = [] ->
  extractContent this (a ++ marker this ++ b ++ marker this ++ c) = trim b.
Proof.
  intros this Ha Hb.
  pose proof (marker_constructor env options) as Hm. fold this in Hm.
  rewrite (extractContent_parts this _ Hm).
  rewrite Hm in *.
  rewrite (occurrences_wrap 60%N marker_tail marker_head_fresh a _ Ha).
  rewrite (occurrences_wrap 60%N marker_tail marker_head_fresh b c Hb).
  cbn [map]. unfold substring. f_equal.
  replace (length a + length (60%N :: marker_tail) + length b
           - (length a + length (60%N :: marker_tail)))%nat
    with (length b) by lia.
  rewrite app_assoc, drop_app_length'
    by (rewrite length_app; reflexivity).
  apply take_app_length.
Qed.

(** ** Links to chapters *)

Lemma seite_id_at_inv (s id : jsstring) :
  seite_id_at s = Some id ->
  exists a c post,
    id = [a; 46%N; c] /\ is_digit a = true /\ is_digit c = true
    /\ s = js "seite" ++ id ++ post.
Proof.
  unfold seite_id_at. destruct (startsWith (js "seite") s) eqn:Hp; [|discriminate].
  apply startsWith_inv in Hp. change (length (js "seite")) with 5%nat in Hp.
  destruct (drop 5 s) as [|a [|b [|c post]]]; try discriminate.
  destruct (is_digit a) eqn:Ha; [|discriminate].
  destruct (N.eqb_spec b 46) as [->|]; [|discriminate].
  destruct (is_digit c) eqn:Hc; [|discriminate].
  intros [= <-]. exists a, c, post. repeat split; assumption.
Qed.

Lemma seite_id_at_token (a c : N) (post : jsstring) :
  is_digit a = true -> is_digit c = true ->
  seite_id_at (js "seite" ++ [a; 46%N; c] ++ post) = Some [a; 46%N; c].
Proof.
  intros Ha Hc. unfold seite_id_at. rewrite startsWith_app.
  change 5%nat with (length (js "seite")). rewrite drop_app_length.
  cbn [app]. rewrite Ha, Hc. reflexivity.
Qed.

(** X3: a link is taken over exactly when its href holds [seite], a digit, a
    dot and a digit somewhere; the id handed to [loadChapter] is the digit,
    dot, digit of such a place, so it always has three code units. *)
Theorem chapter_link_target_token (href : jsstring) :
  (forall id,
     chapter_link_target href = Some id ->
     exists a c pre post,
       id = [a; 46%N; c] /\ is_digit a = true /\ is_digit c = true
       /\ href = pre ++ js "seite" ++ id ++ post)
  /\ (forall a c pre post,
        is_digit a = true -> is_digit c = true ->
        href = pre ++ js "seite" ++ [a; 46%N; c] ++ post ->
        is_Some (chapter_link_target href))
  /\ (forall a c post,
        is_digit a = true -> is_digit c = true ->
        href = js "seite" ++ [a; 46%N; c] ++ post ->
        chapter_link_target href = Some [a; 46%N; c]).
Proof.
  split; [|split].
  - induction href as [|x rest IH]; intros id H; [discriminate|].
    cbn [chapter_link_target] in H.
    destruct (seite_id_at (x :: rest)) as [id'|] eqn:Hat.
    + injection H as <-.
      destruct (seite_id_at_inv _ _ Hat) as (a & c & post & Hid & Ha & Hc & Hs).
      exists a, c, [], post. repeat split; assumption.
    + destruct (IH id H) as (a & c & pre & post & Hid & Ha & Hc & Hs).
      exists a, c, (x :: pre), post. rewrite Hs. repeat split; assumption.
  - intros a c pre post Ha Hc ->. induction pre as [|x pre IH].
    + cbn [app]. change (is_Some (chapter_link_target
                                   (js "seite" ++ [a; 46%N; c] ++ post))).
      destruct (js "seite" ++ [a; 46%N; c] ++ post) as [|y r] eqn:E;
        [discriminate|].
      cbn [chapter_link_target]. rewrite <- E.
      rewrite (seite_id_at_token a c post Ha Hc). eauto.
    + cbn [app chapter_link_target]. destruct (seite_id_at _); eauto.
  - intros a c post Ha Hc ->.
    destruct (js "seite" ++ [a; 46%N; c] ++ post) as [|y r] eqn:E;
      [discriminate|].
    cbn [chapter_link_target]. rewrite <- E.
    rewrite (seite_id_at_token a c post Ha Hc). reflexivity.
Qed.

(** X4: every file of the mapping table, used as a link, leads back to the
    chapter it is the file of. *)
Theorem fileMapping_links_lead_back (id file : jsstring) :
  fileMapping !! id = Some file -> chapter_link_target file = Some id.
Proof.
  intros H. unfold fileMapping in H. apply elem_of_list_to_map_2 in H.
  repeat (apply elem_of_cons in H as [H|H];
          [injection H as -> ->; vm_compute; reflexivity|]).
  apply elem_of_nil in H. destruct H.
Qed.

(** ** The total, printed and read *)

Lemma decimal_value_from (l : jsstring) (v : Z) :
  fold_left (fun acc c => acc * 10 + digit_value c) l v
  = v * 10 ^ Z.of_nat (length l) + decimal_value l.
Proof.
  unfold decimal_value. revert v.
  induction l as [|c l IH]; intros v; cbn [fold_left length].
  - rewrite Z.pow_0_r. lia.
  - rewrite (IH (v * 10 + digit_value c)), (IH (0 * 10 + digit_value c)).
    rewrite Nat2Z.inj_succ, Z.pow_succ_r by lia. lia.
Qed.

Lemma digit_char_digit (n : N) :
  is_digit (digit_char (n mod 10)) = true
  /\ digit_value (digit_char (n mod 10)) = Z.of_N (n mod 10).
Proof.
  pose proof (N.mod_upper_bound n 10 ltac:(discriminate)) as Hlt.
  set (m := (n mod 10)%N) in *. clearbody m.
  unfold is_digit, digit_char, digit_value. split.
  - apply andb_true_intro. split; apply N.leb_le; lia.
  - lia.
Qed.

(** The digits that [decimal_go] writes read back as the number, when the
    fuel covers the size of the number. *)
Lemma decimal_go_value (fuel : nat) (n : N) (acc : jsstring) :
  (n < 2 ^ N.of_nat fuel)%N ->
  forallb is_digit acc = true ->
  forallb is_digit (decimal_go fuel n acc) = true
  /\ decimal_value (decimal_go fuel n acc)
     = Z.of_N n * 10 ^ Z.of_nat (length acc) + decimal_value acc.
Proof.
  revert n acc. induction fuel as [|fuel IH]; intros n acc Hn Hacc.
  - cbn in Hn. assert (n = 0%N) as -> by lia. cbn [decimal_go].
    split; [exact Hacc|]. lia.
  - cbn [decimal_go]. destruct (digit_char_digit n) as [Hd Hv].
    assert (Hacc' : forallb is_digit (digit_char (n mod 10) :: acc) = true).
    { cbn. rewrite Hd. exact Hacc. }
    assert (Hone : decimal_value (digit_char (n mod 10) :: acc)
                   = Z.of_N (n mod 10) * 10 ^ Z.of_nat (length acc)
                     + decimal_value acc).
    { unfold decimal_value at 1. cbn [fold_left].
      rewrite decimal_value_from, Hv. lia. }
    destruct (N.ltb_spec n 10) as [Hsmall|Hbig].
    + split; [exact Hacc'|]. rewrite Hone, N.mod_small by exact Hsmall.
      reflexivity.
    + assert (Hdiv : (n / 10 < 2 ^ N.of_nat fuel)%N).
      { apply N.Div0.div_lt_upper_bound.
        rewrite Nat2N.inj_succ, N.pow_succ_r' in Hn. lia. }
      destruct (IH (n / 10)%N _ Hdiv Hacc') as [Hall Hval].
      split; [exact Hall|]. rewrite Hval, Hone. cbn [length].
      rewrite Nat2Z.inj_succ, Z.pow_succ_r by lia.
      pose proof (N.div_mod n 10 ltac:(discriminate)) as Hdm.
      assert (Hz : Z.of_N n = 10 * Z.of_N (n / 10) + Z.of_N (n mod 10)) by lia.
      rewrite Hz. ring.
Qed.

Lemma decimal_go_nonempty (fuel : nat) (n : N) (acc : jsstring) :
  acc <> [] -> decimal_go fuel n acc <> [].
Proof.
  revert n acc. induction fuel as [|fuel IH]; intros n acc Hacc; [exact Hacc|].
  cbn [decimal_go]. destruct (n <? 10)%N; [discriminate|].
  apply IH. discriminate.
Qed.

Lemma decimal_reads_back (n : N) :
  decimal n <> [] /\ forallb is_digit (decimal n) = true
  /\ decimal_value (decimal n) = Z.of_N n.
Proof.
  unfold decimal.
  assert (Hn : (n < 2 ^ N.of_nat (S (N.to_nat (N.log2 n))))%N).
  { rewrite Nat2N.inj_succ, N2Nat.id. destruct n as [|p]; [reflexivity|].
    apply N.log2_spec. reflexivity. }
  destruct (decimal_go_value _ n [] Hn eq_refl) as [Hall Hval].
  split; [|split; [exact Hall|]].
  - cbn [decimal_go]. destruct (n <? 10)%N; [discriminate|].
    apply decimal_go_nonempty. discriminate.
  - rewrite Hval. cbn. lia.
Qed.

Lemma decimal_go_length (fuel : nat) (n : N) (acc : jsstring) (k : nat) :
  (n < 10 ^ N.of_nat (S k))%N ->
  (length (decimal_go fuel n acc) <= length acc + S k)%nat.
Proof.
  revert n acc k. induction fuel as [|fuel IH]; intros n acc k Hn;
    cbn [decimal_go]; [lia|].
  destruct (N.ltb_spec n 10) as [Hs|Hb]; [cbn [length]; lia|].
  destruct k as [|k]; [cbn in Hn; lia|].
  assert (Hdiv : (n / 10 < 10 ^ N.of_nat (S k))%N).
  { apply N.Div0.div_lt_upper_bound.
    rewrite Nat2N.inj_succ, N.pow_succ_r' in Hn. exact Hn. }
  specialize (IH (n / 10)%N (digit_char (n mod 10) :: acc) k Hdiv).
  cbn [length] in IH. lia.
Qed.

(** The search below 10^21 stays below 10^21: the power of ten itself is
    a double, so it is the text of no other one. *)
Lemma rounds_to_below (v c : Z) :
  rounds_to v c = true -> v < 10 ^ 21 -> c <= 10 ^ 21 -> c < 10 ^ 21.
Proof.
  intros Hc Hv Hle. destruct (Z.eq_dec c (10 ^ 21)) as [->|]; [|lia].
  apply rounds_to_Num in Hc.
  assert (E : Num (10 ^ 21) = Finite (10 ^ 21)) by (vm_compute; reflexivity).
  rewrite E in Hc. injection Hc as <-. lia.
Qed.

Lemma shortest_go_zero (fuel : nat) (v : Z) :
  0 <= v < 10 ^ 21 -> 0 <= shortest_go fuel v 0 < 10 ^ 21.
Proof.
  intros Hv. induction fuel as [|fuel IH]; [exact Hv|].
  cbn [shortest_go]. cbv zeta. rewrite Z.div_0_r.
  change (0 * 0 + 0) with 0. change (0 * 0) with 0. change (0 / 10) with 0.
  destruct (rounds_to v 0); [|exact IH].
  destruct (_ || _)%bool; lia.
Qed.

Lemma shortest_go_below (fuel : nat) (v : Z) (j : nat) :
  0 <= v < 10 ^ 21 -> (j <= 20)%nat ->
  0 <= shortest_go fuel v (10 ^ Z.of_nat j) < 10 ^ 21.
Proof.
  intros Hv. revert j. induction fuel as [|fuel IH]; intros j Hj; [exact Hv|].
  cbn [shortest_go]. cbv zeta.
  set (scale := 10 ^ Z.of_nat j).
  assert (Hpos : 0 < scale) by (apply Z.pow_pos_nonneg; lia).
  assert (Hdiv : scale * 10 ^ (21 - Z.of_nat j) = 10 ^ 21).
  { unfold scale. rewrite <- Z.pow_add_r by lia. f_equal. lia. }
  set (rest := 10 ^ (21 - Z.of_nat j)) in *.
  assert (Hs : 0 <= v / scale < rest).
  { split; [apply Z.div_pos; lia|apply Z.div_lt_upper_bound; lia]. }
  pose proof (Z.mul_div_le v scale Hpos) as Hlo.
  set (s := v / scale) in *.
  assert (Hhi : 0 <= s * scale /\ s * scale <= v
                /\ s * scale + scale <= 10 ^ 21) by nia.
  destruct (rounds_to v (s * scale)) eqn:Elo,
           (rounds_to v (s * scale + scale)) eqn:Ehi.
  - pose proof (rounds_to_below _ _ Ehi ltac:(lia) ltac:(lia)).
    destruct (_ || _)%bool; lia.
  - lia.
  - pose proof (rounds_to_below _ _ Ehi ltac:(lia) ltac:(lia)). lia.
  - destruct j as [|j].
    + unfold scale. change (10 ^ Z.of_nat 0 / 10) with 0.
      apply shortest_go_zero, Hv.
    + assert (E : scale / 10 = 10 ^ Z.of_nat j).
      { unfold scale. rewrite Nat2Z.inj_succ, Z.pow_succ_r by lia.
        rewrite Z.mul_comm, Z.div_mul by lia. reflexivity. }
      rewrite E. apply IH. lia.
Qed.

(** Below 10^21 the text of a Number is a run of digits, and [parseInt]
    reads them as the same Number. *)
Lemma Number_toString_reads_back (z : Z) :
  0 <= z < 10 ^ 21 -> Num z = Finite z ->
  exists ds,
    Number_toString (Finite z) = ds
    /\ ds <> [] /\ forallb is_digit ds = true
    /\ parseInt ds = Finite z.
Proof.
  intros Hz Hcan.
  assert (Hbelow : 0 <= shortest z < 10 ^ 21).
  { unfold shortest.
    destruct (decimal_reads_back (Z.to_N z)) as (Hne & _).
    pose proof (decimal_go_length (S (N.to_nat (N.log2 (Z.to_N z))))
                  (Z.to_N z) [] 20) as Hlen.
    fold (decimal (Z.to_N z)) in Hlen. cbn [length] in Hlen.
    assert (Hn : (Z.to_N z < 10 ^ N.of_nat 21)%N).
    { change (10 ^ N.of_nat 21)%N with (Z.to_N (10 ^ 21)). lia. }
    specialize (Hlen Hn).
    destruct (decimal (Z.to_N z)) as [|d ds]; [congruence|].
    cbn [length] in *.
    replace (Z.of_nat (S (length ds)) - 1) with (Z.of_nat (length ds)) by lia.
    apply shortest_go_below; [exact Hz|lia]. }
  exists (decimal (Z.to_N (shortest z))).
  destruct (decimal_reads_back (Z.to_N (shortest z))) as (Hne & Hds & Hval).
  split; [|split; [exact Hne|split; [exact Hds|]]].
  - unfold Number_toString, format_digits.
    destruct (Z.ltb_spec z 0); [lia|]. rewrite Z.abs_eq by lia.
    destruct (Z.ltb_spec (shortest z) (10 ^ 21)); [reflexivity|lia].
  - rewrite (parseInt_digits _ Hne Hds), Hval, Z2N.id by lia.
    apply shortest_Num, Hcan.
Qed.

(** The total is never NaN and never negative. *)
Lemma Number_sum_nonneg (l : list Z) (t : Number) :
  Forall (Z.le 0) l ->
  (t = Infinity false \/ exists z, t = Finite z /\ 0 <= z /\ Num z = Finite z) ->
  let total := fold_left (fun total z => Number_add total (Num z)) l t in
  total = Infinity false
  \/ exists z, total = Finite z /\ 0 <= z /\ Num z = Finite z.
Proof.
  intros Hl. revert t. induction Hl as [|x l Hx _ IH]; intros t Ht; [exact Ht|].
  cbn [fold_left]. apply IH.
  destruct (Num_nonneg x Hx) as [Ex|(m & Ex & Hm)]; rewrite Ex;
    destruct Ht as [->|(z & -> & Hz & _)]; cbn [Number_add Bool.eqb];
    try (left; reflexivity).
  destruct (Num_nonneg (z + m) ltac:(lia)) as [E|(m' & E & Hm')].
  - left. exact E.
  - right. exists m'. split; [exact E|]. split; [exact Hm'|].
    apply (Num_idem _ _ E).
Qed.

(** X5: the total that [getTotalDuration] prints is never NaN and never
    negative: it is a double of value at least zero, or infinite.  As long
    as it is below 10^21 its text is a run of digits, and read with the
    expression that reads the durations, [/(\d+)/] and [parseInt], the
    text gives the total back, also where the additions have rounded. *)
Theorem total_text_reads_back (chs : list Chapter) :
  let total := fold_left add_duration chs (Num 0) in
  (total = Infinity false \/ exists z, total = Finite z /\ 0 <= z)
  /\ (forall z, total = Finite z -> z < 10 ^ 21 ->
      exists ds,
        total_text chs = ds ++ js " min"
        /\ forallb is_digit ds = true
        /\ match_digits (total_text chs) = Some ds
        /\ parseInt ds = total).
Proof.
  intros total.
  assert (Hcan0 : canonical (Num 0)) by (apply (Num_idem 0), eq_refl).
  pose proof (Number_sum_nonneg _ (Num 0) (leading_integers_nonneg chs)
                (or_intror
                   (ex_intro _ 0 (conj eq_refl (conj (Z.le_refl 0) eq_refl)))))
    as Htotal.
  cbv zeta in Htotal. rewrite <- (fold_add_duration chs (Num 0) Hcan0) in Htotal.
  fold total in Htotal. split.
  - destruct Htotal as [E|(z & E & Hz & _)]; [left; exact E|].
    right. exists z. split; [exact E|exact Hz].
  - intros z Ez Hlt. destruct Htotal as [E|(z' & E & Hz & Hcan)]; [congruence|].
    assert (z' = z) as -> by congruence.
    destruct (Number_toString_reads_back z ltac:(lia) Hcan)
      as (ds & Htext & Hne & Hds & Hread).
    exists ds. unfold total_text. fold total. rewrite Ez, Htext.
    split; [reflexivity|]. split; [exact Hds|]. split; [|exact Hread].
    pose proof (match_digits_run [] ds (js " min") eq_refl Hne Hds eq_refl)
      as Hrun.
    cbn [app] in Hrun. exact Hrun.
Qed.

(** From 10^21 on the text is in exponent notation, and it is read as
    another number: as the digit before the exponent. *)
Example total_text_exponent :
  let chs := [ sample_chapter (js "1.0") (js "1000000000000000000000 min") ] in
  fold_left add_duration chs (Num 0) = Finite (10 ^ 21)
  /\ total_text chs = js "1e+21 min"
  /\ option_map parseInt (match_digits (total_text chs)) = Some (Finite 1).
Proof. cbv zeta. repeat split; vm_compute; reflexivity. Qed.

(** ** The cache, key by key *)

Lemma storage_key_inj (this : CourseLoader) (key key' : jsstring) :
  storage_key this key = storage_key this key' -> key = key'.
Proof.
  unfold storage_key. intros H.
  apply app_inv_head in H. apply app_inv_head in H. exact H.
Qed.

(** What [saveToCache] does to the storage: it adds the envelope when the
    cache is on and the storage takes the write, and nothing otherwise. *)
Lemma saveToCache_storage (env : Env) (this : CourseLoader) (key : jsstring)
    (data : jsval) (st : State) :
  let k := storage_key this key in
  let entry := Envelope data (time_at env (ticks st)) in
  localStorage (snd (saveToCache this key data env st))
  = if cacheEnabled this && negb (quota_exceeded env (localStorage st) k entry)
    then <[k := entry]> (localStorage st)
    else localStorage st.
Proof.
  unfold saveToCache, Date_now, setItem. msimpl.
  destruct (cacheEnabled this); cbn [negb andb]; [|reflexivity].
  destruct (quota_exceeded env _ _ _); reflexivity.
Qed.

(** X6: the entries of other keys are out of reach: a save and a lookup under
    one key leave the entry under any other key as it is. *)
Theorem cache_keys_are_independent (env : Env) (this : CourseLoader)
    (key key' : jsstring) (data : jsval) (st : State) :
  key <> key' ->
  localStorage (snd (saveToCache this key data env st))
    !! storage_key this key'
  = localStorage st !! storage_key this key'
  /\ localStorage (snd (getFromCache this key env st))
       !! storage_key this key'
     = localStorage st !! storage_key this key'.
Proof.
  intros Hne.
  assert (Hk : storage_key this key <> storage_key this key').
  { intros E. apply Hne. exact (storage_key_inj this key key' E). }
  split.
  - rewrite saveToCache_storage. cbv zeta.
    destruct (_ && _); [apply lookup_insert_ne; exact Hk|reflexivity].
  - destruct (getFromCache_cases env this key st)
      as [H|[(d & t & _ & H)|(d & t & _ & H)]]; rewrite H; try reflexivity.
    cbn. apply lookup_delete_ne. exact Hk.
Qed.

(** X7: a stored empty string is returned by the lookup but fails the test
    [if (cached)]: an empty fragment is never served, and the chapter
    fetcher sends a request for a mapped chapter every time. *)
Theorem empty_fragment_is_never_served (env : Env) (this : CourseLoader)
    (chapter : Chapter) (file : jsstring) (timestamp : Z) (st : State) :
  localStorage st !! storage_key this (chapter_key this chapter)
    = Some (Envelope (VString []) timestamp) ->
  fileMapping !! ch_id chapter = Some file ->
  served this (chapter_key this chapter) env st = None
  /\ exists url,
       filter is_fetch
         (trace (snd (fetchChapterContent this chapter env st)))
       = EFetch url :: filter is_fetch (trace st).
Proof.
  intros Hit Hfile.
  destruct (getFromCache_frame env this (chapter_key this chapter) st)
    as (cached & st1 & Hrun & _ & _ & _ & Hfetch & _).
  assert (Hserved : if_truthy cached = None).
  { destruct (getFromCache_cases env this (chapter_key this chapter) st)
      as [H|[(d & t & Hit' & H)|(d & t & _ & H)]];
      rewrite H in Hrun; injection Hrun as <- _; try reflexivity.
    cbv zeta in Hit'. rewrite Hit in Hit'. injection Hit' as <- _.
    reflexivity. }
  split; [unfold served; rewrite Hrun; exact Hserved|].
  rewrite (fetchChapterContent_miss env this chapter st cached st1 Hrun
             Hserved).
  assert (Hprop : property_truthy (get_property fileMapping (ch_id chapter))
                  = true).
  { unfold get_property. rewrite Hfile.
    unfold fileMapping in Hfile. apply elem_of_list_to_map_2 in Hfile.
    repeat (apply elem_of_cons in Hfile as [Hfile|Hfile];
            [injection Hfile as _ ->; reflexivity|]).
    apply elem_of_nil in Hfile. destruct Hfile. }
  rewrite Hprop. cbn [negb].
  set (url := chapter_url env this chapter (time_at env (ticks st1))).
  exists url. pose proof (f_equal (cons (EFetch url)) Hfetch) as Hsent.
  destruct (net_fetch env _ _) as [r|e]; [|exact Hsent].
  destruct (negb (ok r)); [exact Hsent|].
  destruct (text r) as [html|e]; [|exact Hsent].
  destruct (saveToCache_trace env this (chapter_key this chapter)
              (VString (extractContent this html)) (requested url st1))
    as (written & Htrace & [->|[t ->]]); cbn [snd]; rewrite Htrace;
    exact Hsent.
Qed.

(** ** Fetching twice *)

(** A fresh truthy entry under the key of a fetcher is what the fetcher
    returns, and it reads nothing but the clock. *)
Lemma run_fetcher_hit (f : fetcher) (env : Env) (this : CourseLoader)
    (chapter : Chapter) (st : State) (v : jsval) (T : Z) :
  cacheEnabled this = true ->
  (f = ExerciseFetcher -> exercise_ref chapter <> None) ->
  truthy v = true ->
  localStorage st !! storage_key this (fetcher_key f this chapter)
    = Some (Envelope v T) ->
  time_at env (ticks st) <= T + cacheDuration this ->
  run_fetcher f this chapter env st = (Normal v, tick st).
Proof.
  intros Hen Hex Hv Hit Ht.
  assert (Hrun : getFromCache this (fetcher_key f this chapter) env st
                 = (Normal (Some v), tick st)).
  { rewrite (getFromCache_envelope env this _ v T st Hen Hit).
    destruct (Z.gtb_spec (time_at env (ticks st) - T) (cacheDuration this));
      [lia|reflexivity]. }
  destruct f; cbn [run_fetcher fetcher_key] in *.
  - exact (fetchChapterContent_hit env this chapter st v _ Hrun Hv).
  - destruct (exercise_ref chapter) as [exercise|] eqn:E;
      [|exfalso; exact (Hex eq_refl eq_refl)].
    exact (fetchExerciseContent_hit env this chapter exercise st v _ E Hrun Hv).
Qed.

(** X8: fetch, then fetch again: a fragment that was fetched with success is
    stored under the key of the fetcher, whatever stood there before, and
    as long as the entry is there and not older than the TTL a non-empty
    fragment is returned again without a request. *)
Theorem fetched_fragment_is_served_again (f : fetcher) (env : Env)
    (this : CourseLoader) (chapter : Chapter) (st : State) :
  cacheEnabled this = true ->
  (forall m k v, quota_exceeded env m k v = false) ->
  served this (fetcher_key f this chapter) env st = None ->
  takes_failure_path f env this chapter st = false ->
  exists html st' T,
    run_fetcher f this chapter env st
      = (Normal (VString (extractContent this html)), st')
    /\ localStorage st' !! storage_key this (fetcher_key f this chapter)
       = Some (Envelope (VString (extractContent this html)) T)
    /\ (extractContent this html <> [] ->
        forall st2,
          localStorage st2 !! storage_key this (fetcher_key f this chapter)
            = Some (Envelope (VString (extractContent this html)) T) ->
          time_at env (ticks st2) <= T + cacheDuration this ->
          run_fetcher f this chapter env st2
            = (Normal (VString (extractContent this html)), tick st2)
          /\ trace (tick st2) = trace st2).
Proof.
  intros Hen Hquota Hserved Hpath.
  assert (Hex : f = ExerciseFetcher -> exercise_ref chapter <> None).
  { intros -> E. unfold takes_failure_path in Hpath. rewrite E in Hpath.
    discriminate. }
  assert (Hagain : forall html T,
            extractContent this html <> [] ->
            forall st2,
              localStorage st2 !! storage_key this (fetcher_key f this chapter)
                = Some (Envelope (VString (extractContent this html)) T) ->
              time_at env (ticks st2) <= T + cacheDuration this ->
              run_fetcher f this chapter env st2
                = (Normal (VString (extractContent this html)), tick st2)
              /\ trace (tick st2) = trace st2).
  { intros html T Hne st2 Hit Ht. split; [|reflexivity].
    apply (run_fetcher_hit f env this chapter st2 _ T Hen Hex); try assumption.
    destruct (extractContent this html); [congruence|reflexivity]. }
  destruct f; cbn [run_fetcher fetcher_key] in *;
    unfold takes_failure_path in Hpath.
  - rewrite Hserved in Hpath.
    destruct (getFromCache_frame env this (chapter_key this chapter) st)
      as (cached & st1 & Hrun & _).
    unfold served, chapter_response in *. rewrite Hrun in *.
    cbn [fst snd completed] in *.
    rewrite (fetchChapterContent_miss env this chapter st cached st1 Hrun
               Hserved).
    destruct (negb (property_truthy _)); [discriminate|].
    cbn [orb] in Hpath. unfold request_fails in Hpath.
    destruct (net_fetch env _ _) as [r|e]; [|discriminate].
    destruct (negb (ok r)); [discriminate|].
    destruct (text r) as [html|e]; [|discriminate].
    exists html. eexists. eexists. split; [reflexivity|].
    split; [apply (saveToCache_written env this _ _ _ Hen (Hquota _ _ _))|].
    apply Hagain.
  - destruct (exercise_ref chapter) as [exercise|] eqn:E; [|discriminate].
    rewrite Hserved in Hpath.
    destruct (getFromCache_frame env this (exercise_key this chapter) st)
      as (cached & st1 & Hrun & _).
    unfold served, exercise_response in *. rewrite Hrun in *.
    cbn [fst snd completed] in *.
    rewrite (fetchExerciseContent_miss env this chapter exercise st cached st1
               E Hrun Hserved).
    unfold request_fails in Hpath.
    destruct (net_fetch env _ _) as [r|e]; [|discriminate].
    destruct (ok r); [|discriminate].
    destruct (text r) as [html|e]; [|discriminate].
    exists html. eexists. eexists. split; [reflexivity|].
    split; [apply (saveToCache_written env this _ _ _ Hen (Hquota _ _ _))|].
    apply Hagain.
Qed.

(** X9: with the cache switched off nothing is served and the storage is never
    written: both fetchers leave it exactly as it is. *)
Theorem disabled_cache_is_never_touched (f : fetcher) (env : Env)
    (this : CourseLoader) (chapter : Chapter) (st : State) :
  cacheEnabled this = false ->
  served this (fetcher_key f this chapter) env st = None
  /\ localStorage (snd (run_fetcher f this chapter env st)) = localStorage st.
Proof.
  intros Hoff.
  assert (Hget : forall key, getFromCache this key env st = (Normal None, st)).
  { intros key. unfold getFromCache. rewrite Hoff. reflexivity. }
  assert (Hsave : forall key data st0,
            localStorage (snd (saveToCache this key data env st0))
            = localStorage st0).
  { intros key data st0. rewrite saveToCache_storage, Hoff. reflexivity. }
  split; [unfold served; rewrite Hget; reflexivity|].
  destruct f; cbn [run_fetcher fetcher_key].
  - rewrite (fetchChapterContent_miss env this chapter st None st (Hget _)
               eq_refl).
    destruct (negb (property_truthy _)); [reflexivity|].
    destruct (net_fetch env _ _) as [r|e]; [|reflexivity].
    destruct (negb (ok r)); [reflexivity|].
    destruct (text r) as [html|e]; [|reflexivity].
    cbn [snd]. rewrite Hsave. reflexivity.
  - destruct (exercise_ref chapter) as [exercise|] eqn:E.
    + rewrite (fetchExerciseContent_miss env this chapter exercise st None st
                 E (Hget _) eq_refl).
      destruct (net_fetch env _ _) as [r|e]; [|reflexivity].
      destruct (ok r); [|reflexivity].
      destruct (text r) as [html|e]; [|reflexivity].
      cbn [snd]. rewrite Hsave. reflexivity.
    + unfold fetchExerciseContent. rewrite E. reflexivity.
Qed.

(** ** A storage that takes no writes *)

Lemma getFromCache_same_clock (env env' : Env) (this : CourseLoader)
    (key : jsstring) (st : State) :
  time_at env' = time_at env ->
  getFromCache this key env' st = getFromCache this key env st.
Proof.
  intros Hclock. unfold getFromCache.
  destruct (cacheEnabled this); cbn [negb]; [|reflexivity].
  unfold getItem, Date_now, removeItem. msimpl.
  destruct (localStorage st !! storage_key this key) as [[d t|]|];
    try reflexivity.
  msimpl. rewrite Hclock. destruct (_ >? _); reflexivity.
Qed.

(** X10: what a fetcher returns does not depend on whether the storage takes
    the write, and with a storage that takes none the fetcher stores
    nothing: the quota error is swallowed and the fragment is returned all
    the same. *)
Theorem full_storage_never_blocks_display (f : fetcher) (env env' : Env)
    (this : CourseLoader) (chapter : Chapter) (st : State) :
  (forall m k v, quota_exceeded env m k v = true) ->
  time_at env' = time_at env ->
  net_fetch env' = net_fetch env ->
  native_toString env' = native_toString env ->
  fst (run_fetcher f this chapter env st)
    = fst (run_fetcher f this chapter env' st)
  /\ localStorage (snd (run_fetcher f this chapter env st))
     ⊆ localStorage st.
Proof.
  intros Hfull Hclock Hnet Hnative.
  assert (Hsave : forall key data st0,
            localStorage (snd (saveToCache this key data env st0))
            = localStorage st0).
  { intros key data st0. rewrite saveToCache_storage. cbv zeta.
    rewrite Hfull, andb_false_r. reflexivity. }
  destruct f; cbn [run_fetcher].
  - destruct (getFromCache_frame env this (chapter_key this chapter) st)
      as (cached & st1 & Hrun & _ & _ & _ & _ & _ & Hsub & Hhit).
    pose proof (getFromCache_same_clock env env' this
                  (chapter_key this chapter) st Hclock) as Hrun'.
    rewrite Hrun in Hrun'.
    destruct (if_truthy cached) as [v|] eqn:Hserved.
    + destruct (if_truthy_some _ _ Hserved) as [-> Hv].
      rewrite (fetchChapterContent_hit env this chapter st v st1 Hrun Hv).
      rewrite (fetchChapterContent_hit env' this chapter st v st1 Hrun' Hv).
      split; [reflexivity|]. cbn [snd].
      destruct (Hhit ltac:(discriminate)) as [_ ->]. reflexivity.
    + rewrite (fetchChapterContent_miss env this chapter st cached st1 Hrun
                 Hserved).
      rewrite (fetchChapterContent_miss env' this chapter st cached st1 Hrun'
                 Hserved).
      assert (Hurl : forall now,
                chapter_url env' this chapter now
                = chapter_url env this chapter now).
      { intros now. unfold chapter_url, property_toString.
        destruct (get_property _ _) as [[s|name]|]; rewrite ?Hnative;
          reflexivity. }
      cbv zeta. rewrite Hclock, Hnet, Hurl.
      destruct (negb (property_truthy _)); [split; [reflexivity|exact Hsub]|].
      destruct (net_fetch env _ _) as [r|e]; [|split; [reflexivity|exact Hsub]].
      destruct (negb (ok r)); [split; [reflexivity|exact Hsub]|].
      destruct (text r) as [html|e]; [|split; [reflexivity|exact Hsub]].
      split; [reflexivity|]. cbn [snd]. rewrite Hsave. exact Hsub.
  - destruct (exercise_ref chapter) as [exercise|] eqn:E.
    + destruct (getFromCache_frame env this (exercise_key this chapter) st)
        as (cached & st1 & Hrun & _ & _ & _ & _ & _ & Hsub & Hhit).
      pose proof (getFromCache_same_clock env env' this
                    (exercise_key this chapter) st Hclock) as Hrun'.
      rewrite Hrun in Hrun'.
      destruct (if_truthy cached) as [v|] eqn:Hserved.
      * destruct (if_truthy_some _ _ Hserved) as [-> Hv].
        rewrite (fetchExerciseContent_hit env this chapter exercise st v st1
                   E Hrun Hv).
        rewrite (fetchExerciseContent_hit env' this chapter exercise st v st1
                   E Hrun' Hv).
        split; [reflexivity|]. cbn [snd].
        destruct (Hhit ltac:(discriminate)) as [_ ->]. reflexivity.
      * rewrite (fetchExerciseContent_miss env this chapter exercise st cached
                   st1 E Hrun Hserved).
        rewrite (fetchExerciseContent_miss env' this chapter exercise st
                   cached st1 E Hrun' Hserved).
        cbv zeta. rewrite Hclock, Hnet.
        destruct (net_fetch env _ _) as [r|e];
          [|split; [reflexivity|exact Hsub]].
        destruct (ok r); [|split; [reflexivity|exact Hsub]].
        destruct (text r) as [html|e]; [|split; [reflexivity|exact Hsub]].
        split; [reflexivity|]. cbn [snd]. rewrite Hsave. exact Hsub.
    + unfold fetchExerciseContent. rewrite E. split; reflexivity.
Qed.

(** ** Loading the manifest from the network *)

(** [loadConfig] behind a lookup that serves nothing. *)
Lemma loadConfig_miss (env : Env) (this : CourseLoader) (st : State)
    (cached : option jsval) (st1 : State) :
  getFromCache this (config_key this) env st = (Normal cached, st1) ->
  if_truthy cached = None ->
  let url := config_url this (time_at env (ticks st1)) in
  let st2 := requested url st1 in
  loadConfig this env st =
    match net_fetch env (S (ticks st1)) url with
    | Rejected e => (Throw e, st2)
    | Resolved r =>
        if negb (ok r)
        then (Throw {| message := http_message r |}, st2)
        else
          match json r with
          | Rejected e => (Throw e, st2)
          | Resolved cfg =>
              (Normal tt,
               snd (saveToCache this (config_key this) cfg env
                      (set_config (Some cfg) st2)))
          end
    end.
Proof.
  intros Hrun Hmiss url st2. unfold loadConfig.
  fold (config_key this). unfold bind at 1. rewrite Hrun, Hmiss.
  unfold http_message, Date_now, fetch. msimpl. cbn [ticks tick emit].
  fold (config_url this (time_at env (ticks st1))). fold url.
  fold (requested url st1). fold st2.
  destruct (net_fetch env (S (ticks st1)) url) as [r|e]; [|reflexivity].
  destruct (negb (ok r)); [reflexivity|].
  destruct (json r) as [cfg|e]; [|reflexivity]. msimpl.
  pose proof (saveToCache_run env this (config_key this) cfg
                (set_config (Some cfg) st2)) as Hs.
  destruct (saveToCache _ _ _ env _) as [c s']. cbn in Hs.
  injection Hs as ->. reflexivity.
Qed.

Lemma saveToCache_frame (env : Env) (this : CourseLoader) (key : jsstring)
    (data : jsval) (st : State) :
  config (snd (saveToCache this key data env st)) = config st
  /\ container_el (snd (saveToCache this key data env st)) = container_el st
  /\ chapter_content (snd (saveToCache this key data env st))
     = chapter_content st
  /\ filter is_fetch (trace (snd (saveToCache this key data env st)))
     = filter is_fetch (trace st).
Proof.
  unfold saveToCache, Date_now, setItem. msimpl.
  destruct (cacheEnabled this); cbn [negb]; [|repeat split].
  destruct (quota_exceeded env _ _ _); repeat split.
Qed.

(** [loadConfig] in front of a lookup that serves a value: only the
    instance config changes. *)
Lemma loadConfig_hit (env : Env) (this : CourseLoader) (st : State)
    (v : jsval) :
  served this (config_key this) env st = Some v ->
  exists st',
    loadConfig this env st = (Normal tt, st')
    /\ config st' = Some v
    /\ trace st' = trace st
    /\ localStorage st' = localStorage st
    /\ container_el st' = container_el st
    /\ chapter_content st' = chapter_content st
    /\ content_behind st' = content_behind st.
Proof.
  intros Hserved.
  destruct (getFromCache_frame env this (config_key this) st)
    as (cached & st1 & Hrun & _ & Hel & Hcc & _ & _ & _ & Hsame).
  assert (Hbehind : content_behind st1 = content_behind st).
  { change st1 with (snd (Normal cached, st1)). rewrite <- Hrun.
    destruct (getFromCache_cases env this (config_key this) st)
      as [H|[(d & t & _ & H)|(d & t & _ & H)]]; rewrite H; reflexivity. }
  unfold served in Hserved. rewrite Hrun in Hserved.
  cbn [fst completed] in Hserved.
  destruct (if_truthy_some _ _ Hserved) as [-> Hv].
  destruct (Hsame ltac:(discriminate)) as [Htrace Hstore].
  exists (set_config (Some v) st1).
  unfold loadConfig. fold (config_key this). unfold bind at 1.
  rewrite Hrun, Hserved. repeat split; assumption.
Qed.

(** X11: load, then load again: a manifest that came from the network becomes
    the instance config and is stored; as long as the entry is there and
    not older than the TTL, the next [loadConfig] takes the same manifest
    from the cache and sends no request. *)
Theorem loaded_manifest_is_served_again (env : Env) (this : CourseLoader)
    (st : State) (r : Response) (cfg : jsval) :
  cacheEnabled this = true ->
  (forall m k v, quota_exceeded env m k v = false) ->
  served this (config_key this) env st = None ->
  config_response env this st = Resolved r ->
  ok r = true ->
  json r = Resolved cfg ->
  exists st' T,
    loadConfig this env st = (Normal tt, st')
    /\ config st' = Some cfg
    /\ localStorage st' !! storage_key this (config_key this)
       = Some (Envelope cfg T)
    /\ (truthy cfg = true ->
        forall st2,
          localStorage st2 !! storage_key this (config_key this)
            = Some (Envelope cfg T) ->
          time_at env (ticks st2) <= T + cacheDuration this ->
          exists st3,
            loadConfig this env st2 = (Normal tt, st3)
            /\ config st3 = Some cfg
            /\ trace st3 = trace st2).
Proof.
  intros Hen Hquota Hserved Hresp Hok Hjson.
  destruct (getFromCache_frame env this (config_key this) st)
    as (cached & st1 & Hrun & _).
  unfold served in Hserved. unfold config_response in Hresp.
  rewrite Hrun in *. cbn [fst snd completed] in *.
  rewrite (loadConfig_miss env this st cached st1 Hrun Hserved).
  cbv zeta. rewrite Hresp, Hok, Hjson. cbn [negb].
  eexists. eexists. split; [reflexivity|].
  split; [apply saveToCache_frame|].
  split; [apply (saveToCache_written env this _ _ _ Hen (Hquota _ _ _))|].
  intros Hv st2 Hit Ht.
  assert (Hhit : served this (config_key this) env st2 = Some cfg).
  { unfold served.
    rewrite (getFromCache_envelope env this _ cfg _ st2 Hen Hit).
    destruct (Z.gtb_spec (time_at env (ticks st2) - time_at env
                (ticks (set_config (Some cfg)
                   (requested (config_url this (time_at env (ticks st1))) st1))))
                (cacheDuration this)) as [Hgt|_]; [lia|].
    cbn [fst completed if_truthy]. rewrite Hv. reflexivity. }
  destruct (loadConfig_hit env this st2 cfg Hhit)
    as (st3 & Hload & Hcfg & Htrace & _).
  exists st3. repeat split; assumption.
Qed.

(** X12: a network error and a body that is not JSON are fatal as well: behind
    a lookup that serves nothing, [loadConfig] throws the very error of the
    rejected promise, sets no config and saves nothing, and [init] ends in
    [showError] without rendering. *)
Theorem loadConfig_rejection_is_fatal (env : Env) (this : CourseLoader)
    (st : State) (e : JsError) :
  served this (config_key this) env st = None ->
  (config_response env this st = Rejected e
   \/ exists r, config_response env this st = Resolved r
                /\ ok r = true /\ json r = Rejected e) ->
  exists st',
    loadConfig this env st = (Throw e, st')
    /\ config st' = config st
    /\ filter is_save (trace st') = filter is_save (trace st)
    /\ localStorage st' ⊆ localStorage st
    /\ init this env st = showError init_error_message env st'
    /\ container_el (snd (init this env st)) = container_el st.
Proof.
  intros Hserved Hfail.
  destruct (getFromCache_frame env this (config_key this) st)
    as (cached & st1 & Hrun & Hcfg & Hel & Hcc & _ & Hsave & Hsub & _).
  unfold served in Hserved. unfold config_response in Hfail.
  rewrite Hrun in *. cbn [fst snd completed] in *.
  pose proof (loadConfig_miss env this st cached st1 Hrun Hserved) as Hload.
  cbv zeta in Hload.
  set (st2 := requested (config_url this (time_at env (ticks st1))) st1) in *.
  assert (Hthrow : loadConfig this env st = (Throw e, st2)).
  { destruct Hfail as [Hrej|(r & Hres & Hok & Hjson)].
    - rewrite Hrej in Hload. exact Hload.
    - rewrite Hres, Hok, Hjson in Hload. exact Hload. }
  exists st2. split; [exact Hthrow|]. split; [exact Hcfg|].
  split; [exact Hsave|]. split; [exact Hsub|].
  assert (Hinit : init this env st = showError init_error_message env st2).
  { unfold init, try_catch, bind, init_error_message. rewrite Hthrow.
    reflexivity. }
  split; [exact Hinit|]. rewrite Hinit. unfold showError. msimpl.
  destruct (chapter_content st2); exact Hel.
Qed.

(** ** Rendering the page *)

Lemma showError_run (message : jsstring) (env : Env) (st : State) :
  showError message env st
  = (Normal tt,
     match chapter_content st with
     | Some _ => set_chapter_content (Some (error_panel message)) st
     | None => st
     end).
Proof. unfold showError. msimpl. destruct (chapter_content st); reflexivity. Qed.

Lemma showError_shown (message : jsstring) (env : Env) (st : State) :
  showError message env st = (Normal tt, shown_error message st).
Proof. apply showError_run. Qed.



(** X14: when the selector of the container finds no element, [init] loads
    the manifest and then renders nothing and reports nothing: the page
    stays as it was.  When the text is no selector at all,
    [querySelector] throws, and [init] ends in [showError]: the pane, if
    the page has one, shows that the configuration could not be loaded,
    although it was. *)
Theorem init_container_not_found (env : Env) (this : CourseLoader)
    (st : State) (v : jsval) :
  served this (config_key this) env st = Some v ->
  exists st1,
    loadConfig this env st = (Normal tt, st1)
    /\ config st1 = Some v
    /\ container_el st1 = container_el st
    /\ chapter_content st1 = chapter_content st
    /\ trace st1 = trace st
    /\ (selector_valid env (container this) = true ->
        container_el st = None ->
        init this env st = (Normal tt, st1))
    /\ (selector_valid env (container this) = false ->
        init this env st = (Normal tt, shown_error init_error_message st1)).
Proof.
  intros Hserved.
  destruct (loadConfig_hit env this st _ Hserved)
    as (st1 & Hload & Hcfg & Htrace & _ & Hel1 & Hcc & _).
  exists st1. split; [exact Hload|]. split; [exact Hcfg|].
  split; [exact Hel1|]. split; [exact Hcc|]. split; [exact Htrace|]. split.
  - intros Hsel Hel. unfold init, try_catch, bind. rewrite Hload.
    unfold renderUI, querySelector. msimpl. rewrite Hsel, Hel1, Hel.
    reflexivity.
  - intros Hsel. unfold init, try_catch, bind. rewrite Hload.
    unfold renderUI, querySelector, init_error_message. msimpl. rewrite Hsel.
    apply showError_shown.
Qed.

(** ** Selecting a chapter *)

(** X15: neither entry point lets an error out: whatever the cache, the network
    and the page do, [init] and [loadChapter] end normally, and a failure
    inside them ends in [showError]. *)
Theorem entry_points_never_throw (env : Env) (this : CourseLoader)
    (chapterId : jsstring) (st : State) (pg : Page) :
  fst (init this env st) = Normal tt
  /\ fst (loadChapter this chapterId env pg) = Normal tt.
Proof.
  split.
  - unfold init, try_catch.
    destruct (bind (loadConfig this) _ env st) as [[[]|e] st'];
      [reflexivity|]. rewrite showError_run. reflexivity.
  - unfold loadChapter, try_catchP.
    destruct (bindP (liftP config_chapters) _ env pg) as [[[]|e] pg'];
      [reflexivity|]. unfold liftP. rewrite showError_run. reflexivity.
Qed.











(** ** The TTL of the constructor *)

(** X19: a TTL of zero cannot be set: the constructor takes it for a missing
    option, so the loader keeps an entry for an hour. *)
Theorem zero_ttl_means_one_hour (env : Env) (options : Options)
    (key : jsstring) (data : jsval) (st st2 : State) :
  let this := constructor env options in
  let k := storage_key this key in
  let T := time_at env (ticks st) in
  opt_cacheDuration options = Some 0 ->
  opt_cacheEnabled options <> Some false ->
  quota_exceeded env (localStorage st) k (Envelope data T) = false ->
  localStorage st2 !! k
    = localStorage (snd (saveToCache this key data env st)) !! k ->
  time_at env (ticks st2) <= T + 3600000 ->
  cacheDuration this = 3600000
  /\ fst (getFromCache this key env st2) = Normal (Some data).
Proof.
  intros this k T Httl Hon Hq Hsame Ht.
  assert (Hd : cacheDuration this = 3600000).
  { subst this. cbn [cacheDuration constructor]. rewrite Httl. reflexivity. }
  assert (Hen : cacheEnabled this = true).
  { subst this. cbn [cacheEnabled constructor].
    destruct (opt_cacheEnabled options) as [[|]|]; congruence. }
  split; [exact Hd|]. subst k T.
  rewrite (saveToCache_written env this key data st Hen Hq) in Hsame.
  rewrite (getFromCache_envelope env this key data _ st2 Hen Hsame), Hd.
  destruct (Z.gtb_spec (time_at env (ticks st2) - time_at env (ticks st))
              3600000); [lia|reflexivity].
Qed.

(** ** The further statements at concrete inputs *)

Lemma extractContent_wrapped_fragment_witness :
  occurrences (marker loader) (js "<html>") = []
  /\ occurrences (marker loader) (js " <p>Hallo</p> ") = []
  /\ extractContent loader
       (js "<html>" ++ marker loader ++ js " <p>Hallo</p> " ++ marker loader
        ++ js "</html>" ++ marker loader)
     = js "<p>Hallo</p>".
Proof.
  assert (Ha : occurrences (marker loader) (js "<html>") = [])
    by (vm_compute; reflexivity).
  assert (Hb : occurrences (marker loader) (js " <p>Hallo</p> ") = [])
    by (vm_compute; reflexivity).
  split; [exact Ha|]. split; [exact Hb|].
  refine (eq_trans
            (extractContent_wrapped_fragment online no_options (js "<html>")
               (js " <p>Hallo</p> ") (js "</html>" ++ marker loader) Ha Hb) _).
  vm_compute. reflexivity.
Defined.

Lemma fileMapping_links_lead_back_witness :
  fileMapping !! js "1.1" = Some (js "seite1.1_fliesenrechner.html")
  /\ chapter_link_target (js "seite1.1_fliesenrechner.html") = Some (js "1.1").
Proof.
  assert (H : fileMapping !! js "1.1" = Some (js "seite1.1_fliesenrechner.html"))
    by (vm_compute; reflexivity).
  split; [exact H|]. exact (fileMapping_links_lead_back _ _ H).
Defined.

Lemma cache_keys_are_independent_witness :
  js "chapter_situation_1_1.0" <> js "course_config_situation_1"
  /\ localStorage
       (snd (saveToCache loader (js "chapter_situation_1_1.0")
               (VString (js "x")) online cached_page))
       !! storage_key loader (js "course_config_situation_1")
     = Some (Envelope (VConfig sample_config) 900).
Proof.
  assert (H : js "chapter_situation_1_1.0" <> js "course_config_situation_1")
    by (vm_compute; discriminate).
  split; [exact H|].
  refine (eq_trans
            (proj1 (cache_keys_are_independent online loader _ _
                      (VString (js "x")) cached_page H)) _).
  vm_compute. reflexivity.
Defined.

Lemma empty_fragment_is_never_served_witness :
  let chapter := sample_chapter (js "1.1") (js "5 min") in
  localStorage empty_fragment_page
    !! storage_key loader (chapter_key loader chapter)
    = Some (Envelope (VString []) 1000)
  /\ fileMapping !! ch_id chapter = Some (js "seite1.1_fliesenrechner.html")
  /\ served loader (chapter_key loader chapter) online empty_fragment_page
     = None.
Proof.
  cbv zeta.
  assert (H1 : localStorage empty_fragment_page
                 !! storage_key loader
                      (chapter_key loader (sample_chapter (js "1.1") (js "5 min")))
               = Some (Envelope (VString []) 1000))
    by (vm_compute; reflexivity).
  assert (H2 : fileMapping !! ch_id (sample_chapter (js "1.1") (js "5 min"))
               = Some (js "seite1.1_fliesenrechner.html"))
    by (vm_compute; reflexivity).
  split; [exact H1|]. split; [exact H2|].
  exact (proj1 (empty_fragment_is_never_served online loader _ _ _ _ H1 H2)).
Defined.

Lemma fetched_fragment_is_served_again_witness :
  let chapter := sample_chapter (js "1.1") (js "5 min") in
  cacheEnabled loader = true
  /\ served loader (chapter_key loader chapter) online fresh_page = None
  /\ takes_failure_path ChapterFetcher online loader chapter fresh_page = false
  /\ exists html st' T,
       fetchChapterContent loader chapter online fresh_page
         = (Normal (VString (extractContent loader html)), st')
       /\ localStorage st' !! storage_key loader (chapter_key loader chapter)
          = Some (Envelope (VString (extractContent loader html)) T).
Proof.
  cbv zeta.
  assert (H1 : served loader
                 (chapter_key loader (sample_chapter (js "1.1") (js "5 min")))
                 online fresh_page = None) by (vm_compute; reflexivity).
  assert (H2 : takes_failure_path ChapterFetcher online loader
                 (sample_chapter (js "1.1") (js "5 min")) fresh_page = false)
    by (vm_compute; reflexivity).
  split; [reflexivity|]. split; [exact H1|]. split; [exact H2|].
  destruct (fetched_fragment_is_served_again ChapterFetcher online loader _
              fresh_page eq_refl (fun _ _ _ => eq_refl) H1 H2)
    as (html & st' & T & Hrun & Hit & _).
  exists html, st', T. split; [exact Hrun|exact Hit].
Defined.

Lemma disabled_cache_is_never_touched_witness :
  let chapter := sample_chapter (js "1.1") (js "5 min") in
  cacheEnabled uncached_loader = false
  /\ localStorage
       (snd (fetchChapterContent uncached_loader chapter online fresh_page))
     = ∅.
Proof.
  cbv zeta. split; [reflexivity|].
  exact (proj2 (disabled_cache_is_never_touched ChapterFetcher online
                  uncached_loader (sample_chapter (js "1.1") (js "5 min"))
                  fresh_page eq_refl)).
Defined.

Lemma full_storage_never_blocks_display_witness :
  let chapter := sample_chapter (js "1.1") (js "5 min") in
  (forall m k v, quota_exceeded full_storage m k v = true)
  /\ fst (fetchChapterContent loader chapter full_storage fresh_page)
     = Normal (VString (js "<p>x</p>")).
Proof.
  cbv zeta. split; [reflexivity|].
  refine (eq_trans
            (proj1 (full_storage_never_blocks_display ChapterFetcher
                      full_storage online loader
                      (sample_chapter (js "1.1") (js "5 min")) fresh_page
                      (fun _ _ _ => eq_refl) eq_refl eq_refl eq_refl)) _).
  vm_compute. reflexivity.
Defined.

Lemma loaded_manifest_is_served_again_witness :
  served loader (config_key loader) serving_manifest fresh_page = None
  /\ config_response serving_manifest loader fresh_page
     = Resolved manifest_response
  /\ exists st' T,
       loadConfig loader serving_manifest fresh_page = (Normal tt, st')
       /\ config st' = Some (VConfig sample_config)
       /\ localStorage st' !! storage_key loader (config_key loader)
          = Some (Envelope (VConfig sample_config) T).
Proof.
  assert (H1 : served loader (config_key loader) serving_manifest fresh_page
               = None) by (vm_compute; reflexivity).
  assert (H2 : config_response serving_manifest loader fresh_page
               = Resolved manifest_response) by (vm_compute; reflexivity).
  split; [exact H1|]. split; [exact H2|].
  destruct (loaded_manifest_is_served_again serving_manifest loader
              fresh_page manifest_response (VConfig sample_config) eq_refl
              (fun _ _ _ => eq_refl) H1 H2 eq_refl eq_refl)
    as (st' & T & Hload & Hcfg & Hit & _).
  exists st', T. split; [exact Hload|]. split; [exact Hcfg|exact Hit].
Defined.

Lemma loadConfig_rejection_is_fatal_witness :
  served loader (config_key loader) offline fresh_page = None
  /\ config_response offline loader fresh_page
     = Rejected {| message := js "Failed to fetch" |}
  /\ fst (loadConfig loader offline fresh_page)
     = Throw {| message := js "Failed to fetch" |}
  /\ container_el (snd (init loader offline fresh_page)) = Some [].
Proof.
  assert (H1 : served loader (config_key loader) offline fresh_page = None)
    by (vm_compute; reflexivity).
  assert (H2 : config_response offline loader fresh_page
               = Rejected {| message := js "Failed to fetch" |})
    by (vm_compute; reflexivity).
  split; [exact H1|]. split; [exact H2|].
  destruct (loadConfig_rejection_is_fatal offline loader fresh_page _ H1
              (or_introl H2)) as (st' & Hload & _ & _ & _ & _ & Hel).
  split; [rewrite Hload; reflexivity|exact Hel].
Defined.


(** A page that has an element of id [chapter_content] before the end of
    the container keeps it as the pane; one that has it behind the
    container gets the new column as the pane. *)
Example init_keeps_earlier_pane :
  let st := set_chapter_content (Some (js "<p>alt</p>")) cached_page in
  chapter_content (snd (init loader online st)) = Some (js "<p>alt</p>")
  /\ chapter_content (snd (init loader online (set_content_behind true st)))
     = Some placeholder_html.
Proof. cbv zeta. split; vm_compute; reflexivity. Qed.

Lemma init_container_not_found_witness :
  served loader (config_key loader) online bare_page
    = Some (VConfig sample_config)
  /\ selector_valid online (container loader) = true
  /\ container_el bare_page = None
  /\ exists st',
       init loader online bare_page = (Normal tt, st')
       /\ config st' = Some (VConfig sample_config)
       /\ container_el st' = None
       /\ chapter_content st' = None
       /\ trace st' = [].
Proof.
  assert (H : served loader (config_key loader) online bare_page
              = Some (VConfig sample_config)) by (vm_compute; reflexivity).
  assert (Hsel : selector_valid online (container loader) = true)
    by (vm_compute; reflexivity).
  split; [exact H|]. split; [exact Hsel|]. split; [reflexivity|].
  destruct (init_container_not_found online loader bare_page _ H)
    as (st1 & _ & Hcfg & Hel & Hcc & Htrace & Hsilent & _).
  exists st1. split; [exact (Hsilent Hsel eq_refl)|]. split; [exact Hcfg|].
  split; [exact Hel|]. split; [exact Hcc|exact Htrace].
Defined.

(** With a text that is no selector the manifest is loaded from the cache
    and the pane reports that it could not be loaded. *)
Example init_with_mistyped_selector :
  let st := set_chapter_content (Some (js "<p>alt</p>")) cached_page in
  selector_valid online (container mistyped_loader) = false
  /\ config (snd (init mistyped_loader online st))
     = Some (VConfig sample_config)
  /\ chapter_content (snd (init mistyped_loader online st))
     = Some (error_panel init_error_message)
  /\ container_el (snd (init mistyped_loader online st)) = Some [].
Proof.
  cbv zeta. split; [vm_compute; reflexivity|].
  split; [vm_compute; reflexivity|]. split; vm_compute; reflexivity.
Qed.




(** Chapter 1.1 selected on the page that showed 1.0: the highlight has
    moved. *)
Example loadChapter_moves_highlight :
  map highlighted
    (toc_links (snd (loadChapter loader (js "1.1") online sample_page)))
  = [false; true; false].
Proof. vm_compute. reflexivity. Qed.

Lemma zero_ttl_means_one_hour_witness :
  let this := constructor online zero_ttl_options in
  let st1 := snd (saveToCache this (js "k") (VString (js "x")) online fresh_page) in
  opt_cacheDuration zero_ttl_options = Some 0
  /\ cacheDuration this = 3600000
  /\ fst (getFromCache this (js "k") online st1)
     = Normal (Some (VString (js "x"))).
Proof.
  cbv zeta. split; [reflexivity|].
  refine (zero_ttl_means_one_hour online zero_ttl_options (js "k")
            (VString (js "x")) fresh_page _ eq_refl _ eq_refl eq_refl _).
  - discriminate.
  - vm_compute. discriminate.
Defined.
